(** * Candlestick signal engine: a model of [stock_analyzer.py] and its verification

    The development embeds the signal-derivation engine of the repository
    (calendar utility, synthetic bar generator, candle classifier, the two
    signal algorithms, the universe scanner and the chart data) and proves
    the properties the specification states about it, and further properties
    of the code.

    Modelling conventions.
    - Prices and percentages are exact rationals ([Q]); IEEE rounding of the
      intermediate float operations is not modelled.  What the code does at
      the edges of float arithmetic is modelled: numpy's true division by
      zero yields an infinity or a NaN ([npfloat]), Python's float division
      by zero raises [ZeroDivisionError] ([result]).
    - Every read of the wall clock inside one call returns the same instant,
      the section variable [now].  The year of a [datetime] is any integer:
      the ends of Python's range of years are far from the clock.
    - The external collaborators (the price provider, numpy's generator,
      Python's per-process string hash) are section variables.
    - The free-text [reason] field of a signal is display text and is left
      out of the signal records. *)

From Stdlib Require Import ZArith QArith Qround Qabs Qminmax Lqa Lia.
From Stdlib Require Import Sorting.Sorted Sorting.Permutation.
From stdpp Require Import gmap strings list pretty.

Local Open Scope Z_scope.

(** ** Numbers *)

Definition Qlt_bool (x y : Q) : bool := negb (Qle_bool y x).

(** [round(x)] of Python and numpy: to the nearest integer, ties to even. *)
Definition round_half_even (x : Q) : Z :=
  let f := Qfloor x in
  match (x - inject_Z f ?= 1 # 2)%Q with
  | Lt => f
  | Gt => f + 1
  | Eq => if Z.even f then f else f + 1
  end.

(** [round(x, 2)]. *)
Definition round2 (x : Q) : Q := (inject_Z (round_half_even (x * 100)) / 100)%Q.

(** [int(x)]: truncation towards zero. *)
Definition int_of (x : Q) : Z := if Qle_bool 0 x then Qfloor x else Qceiling x.

(** A numpy float64 result: finite, or what a division by zero produces. *)
Inductive npfloat : Type :=
| Fin (q : Q)
| PInf
| NInf
| NaN.

(** numpy's [a / b] on float64 scalars and columns: no exception. *)
Definition np_truediv (a b : Q) : npfloat :=
  if Qeq_bool b 0 then
    match (a ?= 0)%Q with
    | Gt => PInf
    | Lt => NInf
    | Eq => NaN
    end
  else Fin (a / b).

(** [x * 100] and [round(x, 2)] on a numpy float64. *)
Definition np_times100 (x : npfloat) : npfloat :=
  match x with
  | Fin q => Fin (q * 100)
  | other => other
  end.

Definition np_round2 (x : npfloat) : npfloat :=
  match x with
  | Fin q => Fin (round2 q)
  | other => other
  end.

(** ** Exceptions *)

Inductive result (A : Type) : Type :=
| Ok (a : A)
| Raise (e : string).
Arguments Ok {A} a.
Arguments Raise {A} e.

Definition ZeroDivisionError : string := "float division by zero".

(** Python's [a / b] on floats. *)
Definition py_truediv (a b : Q) : result Q :=
  if Qeq_bool b 0 then Raise ZeroDivisionError else Ok (a / b)%Q.

(** ** Calendar *)

(** A [datetime]; [time] is the time of day in microseconds after midnight
    (hour, minute, second and microsecond taken together). *)
Record datetime : Type := mk_datetime {
  year : Z;
  month : Z;
  day : Z;
  time : Z
}.

Definition isleap (y : Z) : bool :=
  (y mod 4 =? 0) && (negb (y mod 100 =? 0) || (y mod 400 =? 0)).

(** [calendar.monthrange(y, m)[1]]. *)
Definition monthrange_days (y m : Z) : Z :=
  if m =? 2 then (if isleap y then 29 else 28)
  else if (m =? 4) || (m =? 6) || (m =? 9) || (m =? 11) then 30
  else 31.

(** [dt.replace(day=d)]. *)
Definition replace_day (dt : datetime) (d : Z) : datetime :=
  {| year := year dt; month := month dt; day := d; time := time dt |}.

(** [dt + relativedelta(months=k)] for [-12 <= k <= 12]: the month moves, the
    year follows, the day is clipped to the length of the new month. *)
Definition add_relativedelta_months (dt : datetime) (months : Z) : datetime :=
  let m := month dt + months in
  let '(y, m) :=
    if 12 <? m then (year dt + 1, m - 12)
    else if m <? 1 then (year dt - 1, m + 12)
    else (year dt, m) in
  {| year := y; month := m;
     day := Z.min (monthrange_days y m) (day dt);
     time := time dt |}.

(** [dt - timedelta(days=1)] and [dt - timedelta(days=n)]. *)
Definition sub_one_day (dt : datetime) : datetime :=
  if 1 <? day dt then replace_day dt (day dt - 1)
  else if 1 <? month dt then
    {| year := year dt; month := month dt - 1;
       day := monthrange_days (year dt) (month dt - 1); time := time dt |}
  else {| year := year dt - 1; month := 12; day := 31; time := time dt |}.

Definition sub_days (n : nat) (dt : datetime) : datetime :=
  Nat.iter n sub_one_day dt.

(** Comparison of two datetimes, field by field. *)
Definition dt_compare (a b : datetime) : comparison :=
  match year a ?= year b with
  | Eq =>
      match month a ?= month b with
      | Eq =>
          match day a ?= day b with
          | Eq => time a ?= time b
          | c => c
          end
      | c => c
      end
  | c => c
  end.

Definition dt_leb (a b : datetime) : bool :=
  match dt_compare a b with
  | Gt => false
  | _ => true
  end.

(** [get_last_two_complete_months], with the clock read passed in. *)
Definition get_last_two_complete_months (today : datetime) : datetime * datetime :=
  let first_of_this_month := replace_day today 1 in
  let last_complete_month := add_relativedelta_months first_of_this_month (-1) in
  let previous_month := add_relativedelta_months last_complete_month (-1) in
  (previous_month, last_complete_month).

Definition month_names : list string :=
  ["January"; "February"; "March"; "April"; "May"; "June"; "July";
   "August"; "September"; "October"; "November"; "December"]%string.

(** [date.strftime("%B %Y")]. *)
Definition get_month_name (date : datetime) : string :=
  default ""%string (month_names !! Z.to_nat (month date - 1))
    +:+ " " +:+ pretty (year date).

Definition pad2 (n : Z) : string :=
  if n <? 10 then "0" +:+ pretty n else pretty n.

(** [date.strftime('%Y-%m-%d')]. *)
Definition strftime_ymd (date : datetime) : string :=
  pretty (year date) +:+ "-" +:+ pad2 (month date) +:+ "-" +:+ pad2 (day date).

(** [pd.date_range(start, end, freq='MS')]: the month starts from [start] to
    [end], each at the time of day of the first.  pandas moves [start]
    forward to a month start when it is not one, leaves [end] as it is, and
    then steps month by month while the current date is not after [end]. *)
Definition is_on_offset_MS (dt : datetime) : bool := day dt =? 1.

Definition rollforward_MS (dt : datetime) : datetime :=
  if is_on_offset_MS dt then dt
  else replace_day (add_relativedelta_months dt 1) 1.

Definition next_MS (dt : datetime) : datetime :=
  replace_day (add_relativedelta_months dt 1) 1.

Definition month_index (dt : datetime) : Z := year dt * 12 + (month dt - 1).

(** The loop [while cur <= end: yield cur; cur = cur + offset]. *)
Fixpoint range_loop (fuel : nat) (cur stop : datetime) : list datetime :=
  match fuel with
  | O => []
  | S n =>
      if dt_leb cur stop then cur :: range_loop n (next_MS cur) stop else []
  end.

(** The loop gets one turn per month from [start] to [stop]; it leaves by
    its test before they run out ([range_loop_fuel]). *)
Definition date_range_MS (start stop : datetime) : list datetime :=
  let s := rollforward_MS start in
  range_loop (Z.to_nat (month_index stop - month_index s + 1)) s stop.

(** ** Bars and the candle classifier *)

Inductive color : Type := green | red | neutral.

(** One row of the raw OHLCV frame. *)
Record bar : Type := mk_bar {
  date : datetime;
  open : Q;
  high : Q;
  low : Q;
  close : Q;
  volume : Z;
  symbol : string
}.

(** One row of the processed frame: the raw columns and the derived ones.
    The three [prev_*] columns are absent (NaN) on the first row. *)
Record cbar : Type := mk_cbar {
  row : bar;
  is_green : bool;
  is_red : bool;
  candle_color : color;
  price_change : Q;
  price_change_pct : npfloat;
  body_size : Q;
  prev_open : option Q;
  prev_close : option Q;
  prev_color : option color
}.

(** The columns [process_data] computes row by row. *)
Definition derive (x : bar) : cbar :=
  let g := Qlt_bool (open x) (close x) in
  let r := Qlt_bool (close x) (open x) in
  {| row := x;
     is_green := g;
     is_red := r;
     candle_color := if g then green else if r then red else neutral;
     price_change := (close x - open x)%Q;
     price_change_pct := np_times100 (np_truediv (close x - open x) (open x));
     body_size := Qabs (close x - open x);
     prev_open := None;
     prev_close := None;
     prev_color := None |}.

(** [col.shift(1)]: every value moves one row down, the first row is empty. *)
Definition shift1 {A : Type} (col : list A) : list (option A) :=
  take (length col) (None :: (Some <$> col)).

Definition set_prev (x : cbar) (p : option Q * (option Q * option color)) : cbar :=
  {| row := row x;
     is_green := is_green x;
     is_red := is_red x;
     candle_color := candle_color x;
     price_change := price_change x;
     price_change_pct := price_change_pct x;
     body_size := body_size x;
     prev_open := p.1;
     prev_close := p.2.1;
     prev_color := p.2.2 |}.

(** [process_data], on the rows of the frame it is given: the rows of the
    frame it returns. *)
Definition process_data (data : list bar) : list cbar :=
  let df := derive <$> data in
  let prev_open_col := shift1 ((fun x => open (row x)) <$> df) in
  let prev_close_col := shift1 ((fun x => close (row x)) <$> df) in
  let prev_color_col := shift1 (candle_color <$> df) in
  zip_with set_prev df (zip prev_open_col (zip prev_close_col prev_color_col)).

(** *** The frames as objects

    [process_data] starts with [df = data.copy()] and assigns every derived
    column to [df].  Frames live in a heap; a frame object holds raw rows or
    processed rows. *)
Inductive frame : Type :=
| RawFrame (rows : list bar)
| ProcessedFrame (rows : list cbar).

Definition frame_bars (f : frame) : list bar :=
  match f with
  | RawFrame rows => rows
  | ProcessedFrame rows => row <$> rows
  end.

(** [data.copy()]: a new object with the same content. *)
Definition df_copy (data : nat) (h : gmap nat frame) : option (nat * gmap nat frame) :=
  f ← h !! data;
  let df := fresh (dom h) in
  Some (df, <[df := f]> h).

(** The column assignments [df[...] = ...], all on the object [df]. *)
Definition df_assign_derived (df : nat) (h : gmap nat frame) : gmap nat frame :=
  alter (fun f => ProcessedFrame (process_data (frame_bars f))) df h.

(** [process_data] on frame objects: [None] only for a dangling reference. *)
Definition process_data_obj (data : nat) (h : gmap nat frame)
  : option (nat * gmap nat frame) :=
  '(df, h1) ← df_copy data h;
  Some (df, df_assign_derived df h1).

(** ** Signals *)

Inductive signal_type : Type := BUY | SELL.

(** A signal of the historical extraction. *)
Record signal : Type := mk_signal {
  sig_type : signal_type;
  sig_symbol : string;
  sig_date : string;
  sig_current_close : Q;
  sig_current_open : Q;
  sig_prev_open : Q;
  sig_prev_close : Q;
  strength : npfloat
}.

(** A signal of the two-month comparison: the same keys and the two month
    labels; its numbers are Python floats. *)
Record month_signal : Type := mk_month_signal {
  ms_type : signal_type;
  ms_symbol : string;
  ms_date : string;
  ms_current_month : string;
  ms_previous_month : string;
  ms_current_close : Q;
  ms_current_open : Q;
  ms_prev_open : Q;
  ms_prev_close : Q;
  ms_strength : Q
}.

(** The two tests both algorithms make on a (previous, current) pair. *)
Definition buy_condition (current previous : cbar) : bool :=
  is_green current && is_red previous
    && Qlt_bool (open (row previous)) (close (row current)).

Definition sell_condition (current previous : cbar) : bool :=
  is_red current && is_green previous
    && Qlt_bool (close (row current)) (open (row previous)).

(** The body of the loop of [generate_signals] for one pair of rows. *)
Definition signal_for_pair (previous current : cbar) : option signal :=
  if buy_condition current previous then
    Some {| sig_type := BUY;
            sig_symbol := symbol (row current);
            sig_date := strftime_ymd (date (row current));
            sig_current_close := round2 (close (row current));
            sig_current_open := round2 (open (row current));
            sig_prev_open := round2 (open (row previous));
            sig_prev_close := round2 (close (row previous));
            strength :=
              np_round2 (np_times100
                (np_truediv (close (row current) - open (row previous))
                            (open (row previous)))) |}
  else if sell_condition current previous then
    Some {| sig_type := SELL;
            sig_symbol := symbol (row current);
            sig_date := strftime_ymd (date (row current));
            sig_current_close := round2 (close (row current));
            sig_current_open := round2 (open (row current));
            sig_prev_open := round2 (open (row previous));
            sig_prev_close := round2 (close (row previous));
            strength :=
              np_round2 (np_times100
                (np_truediv (open (row previous) - close (row current))
                            (open (row previous)))) |}
  else None.

(** One iteration of [for i in range(1, len(df))]. *)
Definition signals_step (df : list cbar) (signals : list signal) (i : nat)
  : list signal :=
  match df !! i, df !! (i - 1)%nat with
  | Some current, Some previous =>
      match signal_for_pair previous current with
      | Some s => signals ++ [s]
      | None => signals
      end
  | _, _ => signals
  end.

Definition generate_signals (data : list bar) : list signal :=
  let df := process_data data in
  fold_left (signals_step df) (seq 1 (length df - 1)) [].

(** [get_latest_signal]. *)
Definition get_latest_signal (data : list bar) : option signal :=
  last (generate_signals data).

(** ** Analyses and reports *)

Inductive trend : Type := bullish | bearish.

(** The dictionary [analyze_stock] returns on success. *)
Record analysis : Type := mk_analysis {
  a_symbol : string;
  current_price : Q;
  current_trend : trend;
  a_candle_color : color;
  a_price_change_pct : npfloat;
  latest_signal : option month_signal;
  comparison_months : string;
  total_signals : nat;
  last_updated : datetime
}.

(** What [analyze_stock] returns: its ['status'] is ['error'] or ['success']. *)
Inductive analysis_result : Type :=
| AnalysisError (sym message : string)
| AnalysisSuccess (a : analysis).

Record error_entry : Type := mk_error_entry {
  err_symbol : string;
  err_message : string
}.

(** The dictionary [results] of [scan_all_stocks] while the loop runs. *)
Record results : Type := mk_results {
  scan_time : datetime;
  total_stocks : nat;
  buy_signals : list analysis;
  sell_signals : list analysis;
  bullish_stocks : list analysis;
  bearish_stocks : list analysis;
  all_stocks : list analysis;
  errors : list error_entry
}.

Record summary : Type := mk_summary {
  total_scanned : nat;
  buy_signals_count : nat;
  sell_signals_count : nat;
  bullish_count : nat;
  bearish_count : nat;
  error_count : nat
}.

(** The returned report: [results] with its ['summary']. *)
Record report : Type := mk_report {
  lists :> results;
  summary_of : summary
}.

Definition append_error (r : results) (e : error_entry) : results :=
  mk_results (scan_time r) (total_stocks r) (buy_signals r) (sell_signals r)
    (bullish_stocks r) (bearish_stocks r) (all_stocks r) (errors r ++ [e]).

Definition append_all (r : results) (a : analysis) : results :=
  mk_results (scan_time r) (total_stocks r) (buy_signals r) (sell_signals r)
    (bullish_stocks r) (bearish_stocks r) (all_stocks r ++ [a]) (errors r).

Definition append_bullish (r : results) (a : analysis) : results :=
  mk_results (scan_time r) (total_stocks r) (buy_signals r) (sell_signals r)
    (bullish_stocks r ++ [a]) (bearish_stocks r) (all_stocks r) (errors r).

Definition append_bearish (r : results) (a : analysis) : results :=
  mk_results (scan_time r) (total_stocks r) (buy_signals r) (sell_signals r)
    (bullish_stocks r) (bearish_stocks r ++ [a]) (all_stocks r) (errors r).

Definition append_buy (r : results) (a : analysis) : results :=
  mk_results (scan_time r) (total_stocks r) (buy_signals r ++ [a]) (sell_signals r)
    (bullish_stocks r) (bearish_stocks r) (all_stocks r) (errors r).

Definition append_sell (r : results) (a : analysis) : results :=
  mk_results (scan_time r) (total_stocks r) (buy_signals r) (sell_signals r ++ [a])
    (bullish_stocks r) (bearish_stocks r) (all_stocks r) (errors r).

(** The sort key of the two signal lists. *)
Definition strength_key (x : analysis) : Q :=
  match latest_signal x with
  | Some s => ms_strength s
  | None => 0%Q
  end.

(** [list.sort(key=..., reverse=True)]: a stable sort, largest key first;
    entries of equal key keep their order. *)
Fixpoint insert_desc {A : Type} (key : A -> Q) (x : A) (l : list A) : list A :=
  match l with
  | [] => [x]
  | y :: l' =>
      if Qle_bool (key y) (key x) then x :: y :: l'
      else y :: insert_desc key x l'
  end.

Fixpoint sort_desc {A : Type} (key : A -> Q) (l : list A) : list A :=
  match l with
  | [] => []
  | x :: l' => insert_desc key x (sort_desc key l')
  end.

Definition NSE_STOCKS : list string :=
  ["RELIANCE"; "TCS"; "HDFCBANK"; "INFY"; "ICICIBANK";
   "HINDUNILVR"; "SBIN"; "BHARTIARTL"; "KOTAKBANK"; "BAJFINANCE";
   "ITC"; "LT"; "AXISBANK"; "ASIANPAINT"; "MARUTI";
   "HCLTECH"; "SUNPHARMA"; "TITAN"; "WIPRO"; "ULTRACEMCO";
   "NTPC"; "POWERGRID"; "NESTLEIND"; "TECHM"; "TATAMOTORS";
   "ONGC"; "COALINDIA"; "JSWSTEEL"; "ADANIENT"; "ADANIPORTS";
   "TATASTEEL"; "GRASIM"; "BAJAJFINSV"; "DIVISLAB"; "BPCL";
   "DRREDDY"; "CIPLA"; "BRITANNIA"; "EICHERMOT"; "APOLLOHOSP";
   "HEROMOTOCO"; "HINDALCO"; "INDUSINDBK"; "UPL"; "SBILIFE";
   "BAJAJ-AUTO"; "TATACONSUM"; "M&M"; "HDFC"; "VEDL"]%string.

(** One row of what the price provider returns for a ticker. *)
Record quote : Type := mk_quote {
  q_date : datetime;
  q_open : Q;
  q_high : Q;
  q_low : Q;
  q_close : Q;
  q_volume : Z
}.

Definition bar_of_quote (sym : string) (q : quote) : bar :=
  {| date := q_date q; open := q_open q; high := q_high q; low := q_low q;
     close := q_close q; volume := q_volume q; symbol := sym |}.

(** ** Sample data *)

Module Sample.

(** 15 March 2026, 14:30. *)
Definition now : datetime := mk_datetime 2026 3 15 52200000000.

Definition first_of (y m : Z) : datetime := mk_datetime y m 1 0.

(** January 2026 red, February 2026 green and closing above January's open. *)
Definition jan_red : bar := mk_bar (first_of 2026 1) 100 105 85 90 1000 "X".
Definition feb_green : bar := mk_bar (first_of 2026 2) 95 112 94 110 1000 "X".

(** February closing a thousandth above January's open. *)
Definition feb_barely : bar :=
  mk_bar (first_of 2026 2) 95 101 94 (100001 # 1000) 1000 "X".

(** A move of one third of the previous open. *)
Definition third_prev : bar := mk_bar (first_of 2026 1) 3 3 2 2 1000 "X".
Definition third_cur : bar := mk_bar (first_of 2026 2) 2 4 2 4 1000 "X".

(** Two bars of 2024, outside the two months compared in March 2026. *)
Definition old_red : bar := mk_bar (first_of 2024 5) 100 105 85 90 1000 "X".
Definition old_green : bar := mk_bar (first_of 2024 6) 95 112 94 110 1000 "X".

(** A generator that returns the lower bound and the mean, and a hash. *)
Definition uniform_lo (lo hi : Q) (g : unit) : Q * unit := (lo, g).
Definition normal_mean (mu sigma : Q) (g : unit) : Q * unit := (mu, g).
Definition seed_unit (s : Z) : unit := tt.
Definition hash_zero (s : string) : Z := 0.

(** A provider without data, and one that knows the ticker [GOOD.NS] only. *)
Definition no_data (ticker : string) (start_date end_date : datetime)
    (interval : string) : result (list quote) := Ok [].

Definition only_good (ticker : string) (start_date end_date : datetime)
    (interval : string) : result (list quote) :=
  if String.eqb ticker "GOOD.NS" then
    Ok [mk_quote (first_of 2026 1) 100 105 85 90 1000;
        mk_quote (first_of 2026 2) 95 112 94 110 1000]
  else Ok [].

(** A provider whose bars for [ZERO.NS] have a previous open of 0 and a
    negative previous close. *)
Definition with_zero_open (ticker : string) (start_date end_date : datetime)
    (interval : string) : result (list quote) :=
  if String.eqb ticker "ZERO.NS" then
    Ok [mk_quote (first_of 2026 1) 0 0 (-1) (-1) 1000;
        mk_quote (first_of 2026 2) (-5) 3 (-5) 3 1000]
  else only_good ticker start_date end_date interval.

(** March 2026 red and closing below February's open. *)
Definition mar_red : bar := mk_bar (first_of 2026 3) 108 109 80 85 1000 "X".

(** A second bar of January 2026, dated the 15th. *)
Definition jan_late : bar :=
  mk_bar (mk_datetime 2026 1 15 0) 90 96 88 92 1000 "X".

(** A provider with a BUY of strength 5 for [WEAK.NS] and a BUY of strength
    10 for [STRONG.NS]. *)
Definition two_buys (ticker : string) (start_date end_date : datetime)
    (interval : string) : result (list quote) :=
  if String.eqb ticker "WEAK.NS" then
    Ok [mk_quote (first_of 2026 1) 100 105 85 90 1000;
        mk_quote (first_of 2026 2) 95 106 94 105 1000]
  else if String.eqb ticker "STRONG.NS" then
    Ok [mk_quote (first_of 2026 1) 100 105 85 90 1000;
        mk_quote (first_of 2026 2) 95 112 94 110 1000]
  else Ok [].

End Sample.

(** ** The analyzer *)

Section Engine.

Set Default Proof Using "Type".

(** The instant every clock read returns. *)
Variable now : datetime.

(** numpy's global generator: its state, [np.random.seed],
    [np.random.uniform(lo, hi)] and [np.random.normal(mu, sigma)]. *)
Variable rng_state : Type.
Variable np_seed : Z -> rng_state.
Variable np_uniform : Q -> Q -> rng_state -> Q * rng_state.
Variable np_normal : Q -> Q -> rng_state -> Q * rng_state.

(** Python's [hash] on strings, fixed for the life of the process. *)
Variable hash : string -> Z.

(** The price provider: [yf.Ticker(ticker).history(start, end, interval)]. *)
Variable yf_history : string -> datetime -> datetime -> string -> result (list quote).

(** What a call can change: the analyzer object ([use_mock_data] and the
    [stocks_data] cache) and numpy's global generator. *)
Record world : Type := mk_world {
  use_mock_data : bool;
  stocks_data : gmap string (list bar);
  np_random : rng_state
}.

(** Computations that read and write the world and may raise. *)
Definition M (A : Type) : Type := world -> result A * world.

Definition ret {A : Type} (a : A) : M A := fun w => (Ok a, w).

Definition bind {A B : Type} (m : M A) (k : A -> M B) : M B :=
  fun w =>
    match m w with
    | (Ok a, w') => k a w'
    | (Raise e, w') => (Raise e, w')
    end.

Definition lift {A : Type} (r : result A) : M A := fun w => (r, w).

(** [try: m  except Exception as e: handler(str(e))]; what [m] changed
    before it raised stays changed. *)
Definition try_except {A : Type} (m : M A) (handler : string -> M A) : M A :=
  fun w =>
    match m w with
    | (Ok a, w') => (Ok a, w')
    | (Raise e, w') => handler e w'
    end.

Notation "x <~ m ;; k" := (bind m (fun x => k))
  (at level 100, m at next level, right associativity).

(** [self.stocks_data[symbol] = df]. *)
Definition cache_frame (sym : string) (df : list bar) : M unit :=
  fun w =>
    (Ok tt, {| use_mock_data := use_mock_data w;
               stocks_data := <[sym := df]> (stocks_data w);
               np_random := np_random w |}).

(** [np.random.seed(s)] and a draw from the global generator. *)
Definition seed (s : Z) : M unit :=
  fun w =>
    (Ok tt, {| use_mock_data := use_mock_data w;
               stocks_data := stocks_data w;
               np_random := np_seed s |}).

Definition draw {A : Type} (f : rng_state -> A * rng_state) : M A :=
  fun w =>
    let '(x, g) := f (np_random w) in
    (Ok x, {| use_mock_data := use_mock_data w;
              stocks_data := stocks_data w;
              np_random := g |}).

(** *** The synthetic bar generator *)

(** The loop [for date in dates] of [_generate_mock_data]; it reads and
    advances the generator and nothing else. *)
Fixpoint mock_rows (sym : string) (dates : list datetime) (current_price : Q)
    (g : rng_state) : list bar * rng_state :=
  match dates with
  | [] => ([], g)
  | d :: dates' =>
      let '(change_pct, g) := np_normal 0 (8 # 100) g in
      let open_price := current_price in
      let close_price := (current_price * (1 + change_pct))%Q in
      let '(n_high, g) := np_normal 0 (2 # 100) g in
      let high_price := (Qmax open_price close_price * (1 + Qabs n_high))%Q in
      let '(n_low, g) := np_normal 0 (2 # 100) g in
      let low_price := (Qmin open_price close_price * (1 - Qabs n_low))%Q in
      let '(u, g) := np_uniform (inject_Z 1000000) (inject_Z 50000000) g in
      let vol := int_of u in
      let '(rest, g) := mock_rows sym dates' close_price g in
      ({| date := d;
          open := round2 open_price;
          high := round2 high_price;
          low := round2 low_price;
          close := round2 close_price;
          volume := vol;
          symbol := sym |} :: rest, g)
  end.

Definition _generate_mock_data (sym : string)
    (start_date end_date : option datetime) : M (list bar) :=
  let '(prev_month, last_month) := get_last_two_complete_months now in
  let start_date :=
    default (add_relativedelta_months prev_month (-6)) start_date in
  let end_date :=
    default (sub_one_day (add_relativedelta_months last_month 1)) end_date in
  let dates := date_range_MS start_date end_date in
  _ <~ seed (hash sym mod 2 ^ 32) ;;
  base_price <~ draw (np_uniform (inject_Z 100) (inject_Z 3000)) ;;
  df <~ draw (mock_rows sym dates base_price) ;;
  _ <~ cache_frame sym df ;;
  ret df.

(** *** Fetching bars *)

(** The [try] block of [fetch_candlestick_data]. *)
Definition fetch_from_provider (sym : string)
    (start_date end_date : option datetime) (interval : string)
  : M (option (list bar)) :=
  let ticker := sym +:+ ".NS" in
  let start_date := default (sub_days (365 * 2) now) start_date in
  let end_date := default now end_date in
  df <~ lift (yf_history ticker start_date end_date interval) ;;
  match df with
  | [] => ret None
  | _ =>
      let df := bar_of_quote sym <$> df in
      _ <~ cache_frame sym df ;;
      ret (Some df)
  end.

Definition fetch_candlestick_data (sym : string)
    (start_date end_date : option datetime) (interval : string)
  : M (option (list bar)) :=
  fun w =>
    if use_mock_data w then
      (df <~ _generate_mock_data sym start_date end_date ;; ret (Some df)) w
    else
      try_except (fetch_from_provider sym start_date end_date interval)
        (fun _ => ret None) w.

(** *** The two-month comparison *)

Definition in_month (anchor : datetime) (r : cbar) : bool :=
  (year (date (row r)) =? year anchor) && (month (date (row r)) =? month anchor).

Definition frame_empty {A : Type} (df : list A) : bool :=
  match df with
  | [] => true
  | _ => false
  end.

(** The rows [(previous, current)] that [generate_signal_for_last_two_months]
    compares in the processed frame [df]; [None] where it returns early. *)
Definition compared_pair (df : list cbar) : option (cbar * cbar) :=
  let '(prev_month_start, curr_month_start) := get_last_two_complete_months now in
  let prev_month_data := List.filter (in_month prev_month_start) df in
  let curr_month_data := List.filter (in_month curr_month_start) df in
  if frame_empty prev_month_data || frame_empty curr_month_data then
    if (length df <? 2)%nat then None
    else
      match df !! (length df - 2)%nat, df !! (length df - 1)%nat with
      | Some previous, Some current => Some (previous, current)
      | _, _ => None
      end
  else
    match prev_month_data, curr_month_data with
    | previous :: _, current :: _ => Some (previous, current)
    | _, _ => None
    end.

(** The signal for the chosen pair; the division is Python's. *)
Definition month_signal_for_pair (previous current : cbar)
  : result (option month_signal) :=
  let sym := symbol (row current) in
  let prev_month_name := get_month_name (date (row previous)) in
  let curr_month_name := get_month_name (date (row current)) in
  if buy_condition current previous then
    match py_truediv (close (row current) - open (row previous))
                     (open (row previous)) with
    | Raise e => Raise e
    | Ok q =>
        Ok (Some {| ms_type := BUY;
                    ms_symbol := sym;
                    ms_date := strftime_ymd (date (row current));
                    ms_current_month := curr_month_name;
                    ms_previous_month := prev_month_name;
                    ms_current_close := round2 (close (row current));
                    ms_current_open := round2 (open (row current));
                    ms_prev_open := round2 (open (row previous));
                    ms_prev_close := round2 (close (row previous));
                    ms_strength := round2 (q * 100) |})
    end
  else if sell_condition current previous then
    match py_truediv (open (row previous) - close (row current))
                     (open (row previous)) with
    | Raise e => Raise e
    | Ok q =>
        Ok (Some {| ms_type := SELL;
                    ms_symbol := sym;
                    ms_date := strftime_ymd (date (row current));
                    ms_current_month := curr_month_name;
                    ms_previous_month := prev_month_name;
                    ms_current_close := round2 (close (row current));
                    ms_current_open := round2 (open (row current));
                    ms_prev_open := round2 (open (row previous));
                    ms_prev_close := round2 (close (row previous));
                    ms_strength := round2 (q * 100) |})
    end
  else Ok None.

Definition generate_signal_for_last_two_months (data : list bar)
  : result (option month_signal) :=
  if (length data <? 2)%nat then Ok None
  else
    match compared_pair (process_data data) with
    | None => Ok None
    | Some (previous, current) => month_signal_for_pair previous current
    end.

(** *** One stock *)

Definition IndexError : string := "single positional indexer is out-of-bounds".

(** [analyze_stock] from the fetched frame on: nothing below the fetch
    touches the analyzer or the generator. *)
Definition analyze_fetched (sym : string) (data : option (list bar))
  : result analysis_result :=
  match data with
  | None | Some [] => Ok (AnalysisError sym "Failed to fetch data")
  | Some data =>
      let processed := process_data data in
      match generate_signal_for_last_two_months data with
      | Raise e => Raise e
      | Ok latest =>
          let all_signals := generate_signals data in
          match last processed with
          | None => Raise IndexError
          | Some current =>
              let '(prev_month, curr_month) := get_last_two_complete_months now in
              Ok (AnalysisSuccess
                    {| a_symbol := sym;
                       current_price := round2 (close (row current));
                       current_trend := if is_green current then bullish else bearish;
                       a_candle_color := candle_color current;
                       a_price_change_pct := np_round2 (price_change_pct current);
                       latest_signal := latest;
                       comparison_months :=
                         get_month_name prev_month +:+ " vs "
                           +:+ get_month_name curr_month;
                       total_signals := length all_signals;
                       last_updated := now |})
          end
      end
  end.

Definition analyze_stock (sym : string) : M analysis_result :=
  data <~ fetch_candlestick_data sym None None "1mo" ;;
  lift (analyze_fetched sym data).

(** *** The whole universe *)

(** What the [try] block of the loop does with the analysis of [sym]. *)
Definition record_analysis (r : results) (sym : string) (a : analysis_result)
  : results :=
  match a with
  | AnalysisError _ message =>
      append_error r {| err_symbol := sym; err_message := message |}
  | AnalysisSuccess a =>
      let r := append_all r a in
      let r :=
        match current_trend a with
        | bullish => append_bullish r a
        | bearish => append_bearish r a
        end in
      match latest_signal a with
      | Some s =>
          match ms_type s with
          | BUY => append_buy r a
          | SELL => append_sell r a
          end
      | None => r
      end
  end.

(** The [try] block of the loop of [scan_all_stocks].  [analyze_stock] is the
    only call in it that can raise, and it comes before the first change to
    [results]. *)
Definition scan_try (r : results) (sym : string) : M results :=
  a <~ analyze_stock sym ;;
  ret (record_analysis r sym a).

Definition scan_symbol (r : results) (sym : string) : M results :=
  try_except (scan_try r sym)
    (fun e => ret (append_error r {| err_symbol := sym; err_message := e |})).

Fixpoint scan_loop (stocks : list string) (r : results) : M results :=
  match stocks with
  | [] => ret r
  | sym :: stocks' => r' <~ scan_symbol r sym ;; scan_loop stocks' r'
  end.

(** [stock_list or NSE_STOCKS]: an absent list and an empty one both give
    the default universe. *)
Definition stocks_or_default (stock_list : option (list string)) : list string :=
  match stock_list with
  | None | Some [] => NSE_STOCKS
  | Some l => l
  end.

Definition scan_all_stocks (stock_list : option (list string)) : M report :=
  let stocks := stocks_or_default stock_list in
  let r0 :=
    {| scan_time := now; total_stocks := length stocks;
       buy_signals := []; sell_signals := [];
       bullish_stocks := []; bearish_stocks := [];
       all_stocks := []; errors := [] |} in
  r <~ scan_loop stocks r0 ;;
  let r :=
    {| scan_time := scan_time r; total_stocks := total_stocks r;
       buy_signals := sort_desc strength_key (buy_signals r);
       sell_signals := sort_desc strength_key (sell_signals r);
       bullish_stocks := bullish_stocks r; bearish_stocks := bearish_stocks r;
       all_stocks := all_stocks r; errors := errors r |} in
  ret {| lists := r;
         summary_of :=
           {| total_scanned := length (all_stocks r);
              buy_signals_count := length (buy_signals r);
              sell_signals_count := length (sell_signals r);
              bullish_count := length (bullish_stocks r);
              bearish_count := length (bearish_stocks r);
              error_count := length (errors r) |} |}.

(** *** Notions the statements use *)

(** The row [process_data] returns for the bar [b] that follows [prev]. *)
Definition classified (prev : option bar) (b : bar) : cbar :=
  set_prev (derive b)
    (open <$> prev, (close <$> prev, (fun p => candle_color (derive p)) <$> prev)).

(** What the iteration [i] of the loop appends. *)
Definition pair_output (df : list cbar) (i : nat) : list signal :=
  match df !! i, df !! (i - 1)%nat with
  | Some current, Some previous => option_list (signal_for_pair previous current)
  | _, _ => []
  end.

(** The data model's bars: prices are not negative. *)
Definition nonneg_prices (b : bar) : Prop :=
  (0 <= open b)%Q /\ (0 <= high b)%Q /\ (0 <= low b)%Q /\ (0 <= close b)%Q.

(** The favourable move of a signal, in percent of the previous open, before
    it is rounded. *)
Definition favourable_move (t : signal_type) (previous current : bar) : Q :=
  match t with
  | BUY => ((close current - open previous) / open previous * 100)%Q
  | SELL => ((open previous - close current) / open previous * 100)%Q
  end.

(** A calendar instant: a month of the year, a day of that month, a time of
    the day. *)
Definition valid_datetime (dt : datetime) : Prop :=
  1 <= month dt <= 12 /\
  1 <= day dt <= monthrange_days (year dt) (month dt) /\
  0 <= time dt < 86400000000.

(** The specification's words: the first of the month that lies [k] months
    before the month of [today]; the time of day is [today]'s. *)
Definition month_start_before (today : datetime) (k : Z) : datetime :=
  let idx := month_index today - k in
  {| year := idx / 12; month := idx mod 12 + 1; day := 1; time := time today |}.

(** [r] is the first row of [df] in the month of [anchor]. *)
Definition first_in_month (anchor : datetime) (df : list cbar) (r : cbar) : Prop :=
  exists i : nat,
    df !! i = Some r /\ in_month anchor r = true /\
    forall (j : nat) (r' : cbar),
      (j < i)%nat -> df !! j = Some r' -> in_month anchor r' = false.

(** The specification's words: the year and the month of the bar are those
    of [anchor]. *)
Definition same_month (anchor : datetime) (b : bar) : Prop :=
  year (date b) = year anchor /\ month (date b) = month anchor.

(** [b], at position [i], is the first bar of [data] in the month of
    [anchor]. *)
Definition first_bar_of_month (anchor : datetime) (data : list bar)
    (i : nat) (b : bar) : Prop :=
  data !! i = Some b /\ same_month anchor b /\
  forall (j : nat) (b' : bar),
    (j < i)%nat -> data !! j = Some b' -> ~ same_month anchor b'.

(** The bars come in the order of their dates. *)
Definition chronological (data : list bar) : Prop :=
  forall (i j : nat) (a b : bar),
    (i <= j)%nat -> data !! i = Some a -> data !! j = Some b ->
    dt_leb (date a) (date b) = true.

(** The frame and the generator state [_generate_mock_data] arrives at: the
    generator is seeded from the symbol, so neither depends on the world. *)
Definition mock_seeded (sym : string) (start_date end_date : option datetime)
  : list bar * rng_state :=
  let '(prev_month, last_month) := get_last_two_complete_months now in
  let start_date :=
    default (add_relativedelta_months prev_month (-6)) start_date in
  let end_date :=
    default (sub_one_day (add_relativedelta_months last_month 1)) end_date in
  let dates := date_range_MS start_date end_date in
  let '(base_price, g) :=
    np_uniform (inject_Z 100) (inject_Z 3000) (np_seed (hash sym mod 2 ^ 32)) in
  mock_rows sym dates base_price g.

(** What [fetch_candlestick_data] returns, by mode. *)
Definition fetched (mock : bool) (sym : string) : option (list bar) :=
  if mock then Some (mock_seeded sym None None).1
  else
    match yf_history (sym +:+ ".NS") (sub_days (365 * 2) now) now "1mo" with
    | Ok [] => None
    | Ok df => Some (bar_of_quote sym <$> df)
    | Raise _ => None
    end.

(** The outcome of [analyze_stock]: a dictionary or an exception. *)
Definition outcome (mock : bool) (sym : string) : result analysis_result :=
  analyze_fetched sym (fetched mock sym).

(** What one turn of the loop of [scan_all_stocks] does with an outcome. *)
Definition record_outcome (r : results) (sym : string)
    (o : result analysis_result) : results :=
  match o with
  | Ok a => record_analysis r sym a
  | Raise e => append_error r {| err_symbol := sym; err_message := e |}
  end.

(** The error entry an outcome gives, if it is a failure. *)
Definition error_entry_of (sym : string) (o : result analysis_result)
  : option error_entry :=
  match o with
  | Ok (AnalysisError _ message) =>
      Some {| err_symbol := sym; err_message := message |}
  | Ok (AnalysisSuccess _) => None
  | Raise e => Some {| err_symbol := sym; err_message := e |}
  end.

(** The analysis an outcome gives, if it is a success. *)
Definition success_of (o : result analysis_result) : option analysis :=
  match o with
  | Ok (AnalysisSuccess a) => Some a
  | _ => None
  end.

(** The tests the loop of [scan_all_stocks] makes on an analysis. *)
Definition is_bullish (a : analysis) : bool :=
  match current_trend a with
  | bullish => true
  | bearish => false
  end.

Definition has_signal (t : signal_type) (a : analysis) : bool :=
  match latest_signal a, t with
  | Some s, BUY => match ms_type s with BUY => true | SELL => false end
  | Some s, SELL => match ms_type s with BUY => false | SELL => true end
  | None, _ => false
  end.

(** [x] may stand before [y] in a list sorted by strength, strongest first. *)
Definition stronger_first {A : Type} (key : A -> Q) (x y : A) : Prop :=
  (key y <= key x)%Q.

(** What a scanned symbol adds to the report: an error entry or an analysis. *)
Definition contribution (sym : string) (o : result analysis_result)
  : error_entry + analysis :=
  match o with
  | Ok (AnalysisError _ message) =>
      inl {| err_symbol := sym; err_message := message |}
  | Ok (AnalysisSuccess a) => inr a
  | Raise e => inl {| err_symbol := sym; err_message := e |}
  end.

(** The two sides of a contribution. *)
Definition as_error (c : error_entry + analysis) : option error_entry :=
  match c with
  | inl e => Some e
  | inr _ => None
  end.

Definition as_success (c : error_entry + analysis) : option analysis :=
  match c with
  | inl _ => None
  | inr a => Some a
  end.

(** The fetch gave nothing to analyse: no frame, or an empty one. *)
Definition unavailable (r : result (option (list bar))) : bool :=
  match r with
  | Ok None | Ok (Some []) => true
  | _ => false
  end.

(** The error entry of a symbol without data. *)
Definition fetch_failed (sym : string) : error_entry :=
  {| err_symbol := sym; err_message := "Failed to fetch data" |}.

(** *** The chart data *)





(** [get_nse_stock_list]: a copy of the list. *)
Definition get_nse_stock_list : list string := NSE_STOCKS.

(** An analysis that carries a signal. *)
Definition signalled (a : analysis) : bool :=
  match latest_signal a with
  | Some _ => true
  | None => false
  end.

(** *** The synthetic bars *)

(** The draws of numpy's generator stay in the range the synthetic prices
    rely on: a base price that is not negative, a monthly change of no less
    than -100 %, and a wick factor of at most 100 %. *)
Definition draws_bounded : Prop :=
  (forall g : rng_state,
     (0 <= (np_uniform (inject_Z 100) (inject_Z 3000) g).1)%Q) /\
  (forall g : rng_state, (-1 <= (np_normal 0 (8 # 100) g).1)%Q) /\
  (forall g : rng_state, (Qabs (np_normal 0 (2 # 100) g).1 <= 1)%Q).

(** A bar whose low and high enclose its open and its close, with no
    negative price. *)
Definition well_formed (b : bar) : Prop :=
  (0 <= low b)%Q /\ (low b <= open b)%Q /\ (low b <= close b)%Q /\
  (open b <= high b)%Q /\ (close b <= high b)%Q.

(** The months [_generate_mock_data] covers when it is given no dates: the
    eight months that end with the later of the two compared months. *)
Definition default_mock_dates (today : datetime) : list datetime :=
  (fun k => month_start_before today k) <$> [8; 7; 6; 5; 4; 3; 2; 1].

(** The cache after a fetch: the fetched frame under the symbol, if any. *)
Definition cache_fetch (mock : bool) (m : gmap string (list bar)) (sym : string)
  : gmap string (list bar) :=
  match fetched mock sym with
  | Some rows => <[sym := rows]> m
  | None => m
  end.



(** ** Verification *)

(** *** The classifier, row by row *)

Lemma Qlt_bool_iff (x y : Q) : Qlt_bool x y = true <-> (x < y)%Q.
Proof.
  unfold Qlt_bool. rewrite negb_true_iff.
  split; intros H.
  - apply Qnot_le_lt. intros Hle. apply Qle_bool_iff in Hle. congruence.
  - destruct (Qle_bool y x) eqn:E; [|reflexivity].
    apply Qle_bool_iff in E. lra.
Qed.

Lemma shift1_length {A} (col : list A) : length (shift1 col) = length col.
Proof. unfold shift1. rewrite length_take. simpl. rewrite length_fmap. lia. Qed.

Lemma shift1_lookup {A} (col : list A) (i : nat) (x : A) :
  col !! i = Some x ->
  shift1 col !! i = Some (match i with O => None | S j => col !! j end).
Proof.
  intros Hi. unfold shift1.
  pose proof (lookup_lt_Some _ _ _ Hi) as Hlt.
  rewrite lookup_take_lt by lia.
  destruct i as [|j]; simpl; [reflexivity|].
  rewrite list_lookup_fmap.
  destruct (col !! j) eqn:E; simpl; [reflexivity|].
  apply lookup_ge_None in E. lia.
Qed.

Lemma process_data_length (data : list bar) :
  length (process_data data) = length data.
Proof.
  unfold process_data.
  rewrite length_zip_with, !length_zip, !shift1_length, !length_fmap. lia.
Qed.

Lemma process_data_lookup (data : list bar) (i : nat) (b : bar) :
  data !! i = Some b ->
  process_data data !! i =
    Some (classified (match i with O => None | S j => data !! j end) b).
Proof.
  intros Hi. unfold process_data.
  assert (Hd : (derive <$> data) !! i = Some (derive b))
    by (rewrite list_lookup_fmap, Hi; reflexivity).
  rewrite lookup_zip_with, Hd. simpl.
  rewrite !lookup_zip_with.
  erewrite !shift1_lookup by (rewrite !list_lookup_fmap, Hi; reflexivity).
  simpl. f_equal. unfold classified. f_equal.
  destruct i as [|j]; simpl; [reflexivity|].
  rewrite !list_lookup_fmap. destruct (data !! j); reflexivity.
Qed.

(** *** Colours of processed rows *)

Lemma classified_row (prev : option bar) (b : bar) : row (classified prev b) = b.
Proof. reflexivity. Qed.

Lemma classified_green (prev : option bar) (b : bar) :
  candle_color (classified prev b) = green <-> is_green (classified prev b) = true.
Proof.
  simpl. destruct (Qlt_bool (open b) (close b)), (Qlt_bool (close b) (open b));
    split; congruence.
Qed.

Lemma classified_red (prev : option bar) (b : bar) :
  candle_color (classified prev b) = red <-> is_red (classified prev b) = true.
Proof.
  simpl.
  destruct (Qlt_bool (open b) (close b)) eqn:G, (Qlt_bool (close b) (open b)) eqn:R;
    split; try congruence.
  apply Qlt_bool_iff in G, R. lra.
Qed.

Lemma process_data_elem (data : list bar) (i : nat) (r : cbar) :
  process_data data !! i = Some r ->
  exists b, data !! i = Some b /\
    r = classified (match i with O => None | S j => data !! j end) b.
Proof.
  intros Hr.
  destruct (data !! i) as [b|] eqn:Hb.
  - exists b. split; [reflexivity|].
    rewrite (process_data_lookup _ _ _ Hb) in Hr. congruence.
  - apply lookup_ge_None in Hb.
    apply lookup_lt_Some in Hr. rewrite process_data_length in Hr. lia.
Qed.

(** *** The loop of [generate_signals] *)

Lemma signals_step_app (df : list cbar) (signals : list signal) (i : nat) :
  signals_step df signals i = signals ++ pair_output df i.
Proof.
  unfold signals_step, pair_output.
  destruct (df !! i), (df !! (i - 1)%nat); simpl; try (symmetry; apply app_nil_r).
  destruct (signal_for_pair _ _); simpl; [reflexivity | symmetry; apply app_nil_r].
Qed.

Lemma signals_loop (df : list cbar) (idx : list nat) (signals : list signal) :
  fold_left (signals_step df) idx signals =
    signals ++ concat (pair_output df <$> idx).
Proof.
  revert signals. induction idx as [|i idx IH]; intros signals; simpl.
  - symmetry. apply app_nil_r.
  - rewrite IH, signals_step_app, <- app_assoc. reflexivity.
Qed.

Lemma generate_signals_concat (data : list bar) :
  generate_signals data =
    concat (pair_output (process_data data) <$> seq 1 (length data - 1)).
Proof.
  unfold generate_signals. rewrite signals_loop, process_data_length. reflexivity.
Qed.

Lemma signal_for_pair_cases (previous current : cbar) :
  (buy_condition current previous = true /\
   exists s, signal_for_pair previous current = Some s /\ sig_type s = BUY /\
     strength s = np_round2 (np_times100
       (np_truediv (close (row current) - open (row previous)) (open (row previous)))))
  \/ (buy_condition current previous = false /\
      sell_condition current previous = true /\
      exists s, signal_for_pair previous current = Some s /\ sig_type s = SELL /\
        strength s = np_round2 (np_times100
          (np_truediv (open (row previous) - close (row current)) (open (row previous)))))
  \/ (buy_condition current previous = false /\
      sell_condition current previous = false /\
      signal_for_pair previous current = None).
Proof.
  unfold signal_for_pair.
  destruct (buy_condition current previous).
  - left. split; [reflexivity|]. eexists. split; [reflexivity|]. split; reflexivity.
  - right. destruct (sell_condition current previous).
    + left. do 2 (split; [reflexivity|]). eexists. split; [reflexivity|].
      split; reflexivity.
    + right. repeat split.
Qed.

Lemma buy_condition_iff (previous current : cbar) :
  buy_condition current previous = true <->
  is_green current = true /\ is_red previous = true /\
  (open (row previous) < close (row current))%Q.
Proof.
  unfold buy_condition. rewrite !andb_true_iff, Qlt_bool_iff. tauto.
Qed.

Lemma sell_condition_iff (previous current : cbar) :
  sell_condition current previous = true <->
  is_red current = true /\ is_green previous = true /\
  (close (row current) < open (row previous))%Q.
Proof.
  unfold sell_condition. rewrite !andb_true_iff, Qlt_bool_iff. tauto.
Qed.

(** The two conditions exclude each other on processed rows. *)
Lemma buy_sell_exclusive (p q : option bar) (a b : bar) :
  buy_condition (classified q b) (classified p a) = true ->
  sell_condition (classified q b) (classified p a) = false.
Proof.
  intros Hb. apply buy_condition_iff in Hb as (Hg & _ & _).
  destruct (sell_condition _ _) eqn:Hs; [|reflexivity].
  apply sell_condition_iff in Hs as (Hr & _ & _).
  simpl in Hg, Hr. apply Qlt_bool_iff in Hg, Hr. lra.
Qed.

Lemma np_pct_finite (a b : Q) :
  ~ (b == 0)%Q ->
  np_round2 (np_times100 (np_truediv a b)) = Fin (round2 (a / b * 100)).
Proof.
  intros Hb. unfold np_truediv.
  destruct (Qeq_bool b 0) eqn:E; [|reflexivity].
  apply Qeq_bool_iff in E. contradiction.
Qed.

Lemma pair_output_succ (df : list cbar) (i : nat) (previous current : cbar) :
  df !! i = Some previous -> df !! S i = Some current ->
  pair_output df (S i) = option_list (signal_for_pair previous current).
Proof.
  intros Hp Hc. unfold pair_output.
  replace (S i - 1)%nat with i by lia. rewrite Hc, Hp. reflexivity.
Qed.

(** C1 (as amended): [generate_signals] is the concatenation, in order, of one
    output per adjacent pair of processed rows.  The output of a pair holds at
    most one signal; it holds a BUY signal exactly when the current bar is
    green, the previous bar is red and the current close is above the previous
    open, and a SELL signal exactly when the current bar is red, the previous
    bar is green and the current close is below the previous open; otherwise
    it is empty.  The strength of the signal is the move relative to the
    previous open, in percent, rounded to two decimals. *)
Theorem generate_signals_per_pair (data : list bar) :
  exists outs : list (list signal),
    generate_signals data = concat outs /\
    length outs = (length data - 1)%nat /\
    forall (i : nat) (previous current : cbar) (out : list signal),
      process_data data !! i = Some previous ->
      process_data data !! S i = Some current ->
      outs !! i = Some out ->
      (length out <= 1)%nat /\
      ((exists s, s ∈ out /\ sig_type s = BUY) <->
         candle_color current = green /\ candle_color previous = red /\
         (open (row previous) < close (row current))%Q) /\
      ((exists s, s ∈ out /\ sig_type s = SELL) <->
         candle_color current = red /\ candle_color previous = green /\
         (close (row current) < open (row previous))%Q) /\
      (forall s, s ∈ out -> sig_type s = BUY ->
         strength s = np_round2 (np_times100
           (np_truediv (close (row current) - open (row previous))
                       (open (row previous)))) /\
         (~ (open (row previous) == 0)%Q ->
          strength s = Fin (round2
            ((close (row current) - open (row previous))
               / open (row previous) * 100)))) /\
      (forall s, s ∈ out -> sig_type s = SELL ->
         strength s = np_round2 (np_times100
           (np_truediv (open (row previous) - close (row current))
                       (open (row previous)))) /\
         (~ (open (row previous) == 0)%Q ->
          strength s = Fin (round2
            ((open (row previous) - close (row current))
               / open (row previous) * 100)))).
Proof.
  exists (pair_output (process_data data) <$> seq 1 (length data - 1)).
  split; [apply generate_signals_concat|].
  split; [rewrite length_fmap, length_seq; reflexivity|].
  intros i previous current out Hp Hc Hout.
  rewrite list_lookup_fmap in Hout.
  destruct (seq 1 (length data - 1) !! i) as [k|] eqn:Hk; [|discriminate].
  apply lookup_seq in Hk as [-> _]. simpl in Hout.
  injection Hout as <-.
  change (1 + i)%nat with (S i). rewrite (pair_output_succ _ _ _ _ Hp Hc).
  apply process_data_elem in Hp as (a & _ & ->).
  apply process_data_elem in Hc as (b & _ & ->).
  rewrite classified_green, !classified_red, classified_green.
  set (p := classified _ a). set (c := classified _ b).
  rewrite <- buy_condition_iff, <- sell_condition_iff.
  destruct (signal_for_pair_cases p c)
    as [(Hb & s & -> & Ht & Hs) | [(Hb & Hs' & s & -> & Ht & Hs) | (Hb & Hs' & ->)]];
    simpl.
  - pose proof (buy_sell_exclusive _ _ _ _ Hb) as Hx. fold p c in Hx.
    split; [lia|]. split; [|split; [|split]].
    + split; [intros _; exact Hb | intros _; exists s; split; [left | exact Ht]].
    + split; [|congruence].
      intros (s' & Hin & Ht'). apply list_elem_of_singleton in Hin. congruence.
    + intros s' Hin _. apply list_elem_of_singleton in Hin. subst s'.
      split; [exact Hs|]. intros Hz. rewrite Hs. apply np_pct_finite, Hz.
    + intros s' Hin Ht'. apply list_elem_of_singleton in Hin. congruence.
  - split; [lia|]. split; [|split; [|split]].
    + split; [|congruence].
      intros (s' & Hin & Ht'). apply list_elem_of_singleton in Hin. congruence.
    + split; [intros _; exact Hs' | intros _; exists s; split; [left | exact Ht]].
    + intros s' Hin Ht'. apply list_elem_of_singleton in Hin. congruence.
    + intros s' Hin _. apply list_elem_of_singleton in Hin. subst s'.
      split; [exact Hs|]. intros Hz. rewrite Hs. apply np_pct_finite, Hz.
  - split; [lia|]. split; [|split; [|split]].
    + split; [|congruence]. intros (s' & Hin & _). inversion Hin.
    + split; [|congruence]. intros (s' & Hin & _). inversion Hin.
    + intros s' Hin. inversion Hin.
    + intros s' Hin. inversion Hin.
Qed.

(** *** Rounding *)

Lemma round_half_even_nonneg (x : Q) : (0 <= x)%Q -> 0 <= round_half_even x.
Proof.
  intros Hx. unfold round_half_even.
  assert (Hf : 0 <= Qfloor x).
  { change 0 with (Qfloor 0). apply Qfloor_resp_le, Hx. }
  destruct (x - inject_Z (Qfloor x) ?= 1 # 2)%Q; [destruct (Z.even _)| |]; lia.
Qed.

Lemma round2_nonneg (x : Q) : (0 <= x)%Q -> (0 <= round2 x)%Q.
Proof.
  intros Hx. unfold round2.
  assert (H : 0 <= round_half_even (x * 100)).
  { apply round_half_even_nonneg. lra. }
  assert (H' : (0 <= inject_Z (round_half_even (x * 100)))%Q).
  { change 0%Q with (inject_Z 0). rewrite <- Zle_Qle. exact H. }
  apply Qle_shift_div_l; lra.
Qed.

Lemma pct_positive (x base : Q) :
  (0 < base)%Q -> (0 < x)%Q -> (0 < x / base * 100)%Q.
Proof.
  intros Hb Hx.
  assert (0 < x / base)%Q by (apply Qlt_shift_div_l; lra).
  lra.
Qed.

(** *** Where signals come from *)

Lemma process_data_in (data : list bar) (r : cbar) :
  r ∈ process_data data ->
  exists prev b, b ∈ data /\ r = classified prev b.
Proof.
  intros Hr. apply list_elem_of_lookup in Hr as (i & Hi).
  apply process_data_elem in Hi as (b & Hb & ->).
  eexists _, b. split; [|reflexivity].
  apply list_elem_of_lookup. exists i. exact Hb.
Qed.

Lemma generate_signals_elem (data : list bar) (s : signal) :
  s ∈ generate_signals data ->
  exists (i : nat) (previous current : cbar),
    process_data data !! i = Some previous /\
    process_data data !! S i = Some current /\
    signal_for_pair previous current = Some s.
Proof.
  rewrite generate_signals_concat. intros Hs.
  apply list_elem_of_In, in_concat in Hs as (out & Hout & Hs).
  apply list_elem_of_In in Hout, Hs.
  apply list_elem_of_fmap in Hout as (k & -> & Hk).
  apply elem_of_seq in Hk as [Hk1 Hk2].
  destruct k as [|i]; [lia|].
  unfold pair_output in Hs. replace (S i - 1)%nat with i in Hs by lia.
  destruct (process_data data !! S i) as [current|] eqn:Hc; [|inversion Hs].
  destruct (process_data data !! i) as [previous|] eqn:Hp; [|inversion Hs].
  exists i, previous, current. do 2 (split; [assumption|]).
  destruct (signal_for_pair previous current) as [s'|]; [|inversion Hs].
  apply list_elem_of_singleton in Hs. congruence.
Qed.

Lemma compared_pair_in (df : list cbar) (previous current : cbar) :
  compared_pair df = Some (previous, current) ->
  previous ∈ df /\ current ∈ df.
Proof.
  unfold compared_pair.
  destruct (get_last_two_complete_months now) as [pms cms].
  destruct (frame_empty _ || frame_empty _).
  - destruct (length df <? 2)%nat; [discriminate|].
    destruct (df !! (length df - 2)%nat) as [p|] eqn:Hp; [|discriminate].
    destruct (df !! (length df - 1)%nat) as [c|] eqn:Hc; [|discriminate].
    intros [= <- <-]. split; eapply list_elem_of_lookup_2; eassumption.
  - destruct (List.filter (in_month pms) df) as [|p ps] eqn:Hp; [discriminate|].
    destruct (List.filter (in_month cms) df) as [|c cs] eqn:Hc; [discriminate|].
    intros [= <- <-].
    split; apply list_elem_of_In.
    + assert (H : In p (List.filter (in_month pms) df)) by (rewrite Hp; left; reflexivity).
      apply filter_In in H. tauto.
    + assert (H : In c (List.filter (in_month cms) df)) by (rewrite Hc; left; reflexivity).
      apply filter_In in H. tauto.
Qed.

(** *** Strength *)

Lemma buy_move_positive (p q : option bar) (a b : bar) :
  nonneg_prices a ->
  buy_condition (classified q b) (classified p a) = true ->
  (0 < open a)%Q /\ (0 < favourable_move BUY a b)%Q.
Proof.
  intros (_ & _ & _ & Hc) Hb.
  apply buy_condition_iff in Hb as (_ & Hr & Hlt).
  simpl in Hr, Hlt. apply Qlt_bool_iff in Hr.
  assert (Hpos : (0 < open a)%Q) by lra.
  split; [exact Hpos|]. apply pct_positive; lra.
Qed.

Lemma sell_move_positive (p q : option bar) (a b : bar) :
  nonneg_prices b ->
  sell_condition (classified q b) (classified p a) = true ->
  (0 < open a)%Q /\ (0 < favourable_move SELL a b)%Q.
Proof.
  intros (_ & _ & _ & Hc) Hs.
  apply sell_condition_iff in Hs as (_ & _ & Hlt).
  simpl in Hlt.
  assert (Hpos : (0 < open a)%Q) by lra.
  split; [exact Hpos|]. apply pct_positive; lra.
Qed.

Lemma py_truediv_nonzero (a b : Q) :
  (0 < b)%Q -> py_truediv a b = Ok (a / b)%Q.
Proof.
  intros Hb. unfold py_truediv.
  destruct (Qeq_bool b 0) eqn:E; [|reflexivity].
  apply Qeq_bool_iff in E. lra.
Qed.

(** The historical signal of a pair of non-negative bars. *)
Lemma signal_for_pair_strength (p q : option bar) (a b : bar) (s : signal) :
  nonneg_prices a -> nonneg_prices b ->
  signal_for_pair (classified p a) (classified q b) = Some s ->
  (0 < open a)%Q /\ (0 < favourable_move (sig_type s) a b)%Q /\
  strength s = Fin (round2 (favourable_move (sig_type s) a b)).
Proof.
  intros Ha Hb Hs.
  destruct (signal_for_pair_cases (classified p a) (classified q b))
    as [(Hc & s' & E & Ht & Hst) | [(_ & Hc & s' & E & Ht & Hst) | (_ & _ & E)]];
    rewrite E in Hs; [| |discriminate]; injection Hs as ->; rewrite Ht.
  - destruct (buy_move_positive _ _ _ _ Ha Hc) as [Hpos Hmv].
    do 2 (split; [assumption|]).
    rewrite Hst. apply np_pct_finite. simpl. lra.
  - destruct (sell_move_positive _ _ _ _ Hb Hc) as [Hpos Hmv].
    do 2 (split; [assumption|]).
    rewrite Hst. apply np_pct_finite. simpl. lra.
Qed.

(** The two-month signal of a pair of non-negative bars: no exception. *)
Lemma month_signal_for_pair_strength (p q : option bar) (a b : bar) :
  nonneg_prices a -> nonneg_prices b ->
  month_signal_for_pair (classified p a) (classified q b) = Ok None \/
  exists s, month_signal_for_pair (classified p a) (classified q b) = Ok (Some s) /\
    (0 < open a)%Q /\ (0 < favourable_move (ms_type s) a b)%Q /\
    ms_strength s = round2 (favourable_move (ms_type s) a b).
Proof.
  intros Ha Hb. unfold month_signal_for_pair.
  destruct (buy_condition _ _) eqn:Hc.
  - destruct (buy_move_positive _ _ _ _ Ha Hc) as [Hpos Hmv].
    rewrite classified_row, py_truediv_nonzero by exact Hpos.
    right. eexists. split; [reflexivity|]. simpl.
    do 2 (split; [assumption|]). reflexivity.
  - destruct (sell_condition _ _) eqn:Hs; [|left; reflexivity].
    destruct (sell_move_positive _ _ _ _ Hb Hs) as [Hpos Hmv].
    rewrite classified_row, py_truediv_nonzero by exact Hpos.
    right. eexists. split; [reflexivity|]. simpl.
    do 2 (split; [assumption|]). reflexivity.
Qed.

(** C3 (as amended): on bars with non-negative prices, the strength of every
    signal of either algorithm is the favourable move relative to the
    previous bar's open, which is strictly positive, rounded to two decimals;
    the strength itself is therefore not negative. *)
Theorem strength_rounded_favourable_move (data : list bar) :
  Forall nonneg_prices data ->
  (forall s : signal, s ∈ generate_signals data ->
     exists (i : nat) (previous current : bar),
       data !! i = Some previous /\ data !! S i = Some current /\
       (0 < open previous)%Q /\
       (0 < favourable_move (sig_type s) previous current)%Q /\
       strength s = Fin (round2 (favourable_move (sig_type s) previous current)) /\
       (0 <= round2 (favourable_move (sig_type s) previous current))%Q) /\
  (forall s : month_signal,
     generate_signal_for_last_two_months data = Ok (Some s) ->
     exists p c : cbar,
       compared_pair (process_data data) = Some (p, c) /\
       (0 < open (row p))%Q /\
       (0 < favourable_move (ms_type s) (row p) (row c))%Q /\
       ms_strength s = round2 (favourable_move (ms_type s) (row p) (row c)) /\
       (0 <= ms_strength s)%Q).
Proof.
  intros Hdata. rewrite Forall_forall in Hdata. split.
  - intros s Hs.
    apply generate_signals_elem in Hs as (i & p & c & Hp & Hc & Hs).
    apply process_data_elem in Hp as (a & Ha & ->).
    apply process_data_elem in Hc as (b & Hb & ->).
    assert (Hina : a ∈ data) by (eapply list_elem_of_lookup_2; eassumption).
    assert (Hinb : b ∈ data) by (eapply list_elem_of_lookup_2; eassumption).
    destruct (signal_for_pair_strength _ _ _ _ _ (Hdata _ Hina) (Hdata _ Hinb) Hs)
      as (Hpos & Hmv & Hst).
    exists i, a, b. repeat (split; [assumption|]).
    apply round2_nonneg. lra.
  - intros s Hs. unfold generate_signal_for_last_two_months in Hs.
    destruct (length data <? 2)%nat; [discriminate|].
    destruct (compared_pair (process_data data)) as [[p c]|] eqn:Hpair;
      [|discriminate].
    exists p, c. split; [reflexivity|].
    apply compared_pair_in in Hpair as [Hp Hc].
    apply process_data_in in Hp as (pp & a & Hina & ->).
    apply process_data_in in Hc as (pc & b & Hinb & ->).
    destruct (month_signal_for_pair_strength pp pc a b (Hdata _ Hina) (Hdata _ Hinb))
      as [E | (s' & E & Hpos & Hmv & Hst)]; rewrite E in Hs; [discriminate|].
    injection Hs as ->. rewrite !classified_row.
    repeat (split; [assumption|]).
    rewrite Hst. apply round2_nonneg. lra.
Qed.

(** *** The calendar utility *)

Lemma monthrange_days_ge (y m : Z) : 28 <= monthrange_days y m.
Proof.
  unfold monthrange_days.
  destruct (m =? 2); [destruct (isleap y); lia|].
  destruct ((m =? 4) || (m =? 6) || (m =? 9) || (m =? 11)); lia.
Qed.

Lemma first_day_not_clipped (y m : Z) : Z.min (monthrange_days y m) 1 = 1.
Proof. pose proof (monthrange_days_ge y m). lia. Qed.

(** One month back from the first of a month. *)
Lemma month_back_from_first (dt : datetime) :
  1 <= month dt <= 12 -> day dt = 1 ->
  add_relativedelta_months dt (-1) =
    {| year := (month_index dt - 1) / 12;
       month := (month_index dt - 1) mod 12 + 1;
       day := 1; time := time dt |}.
Proof.
  intros Hm Hd. clear np_seed yf_history.
  unfold add_relativedelta_months, month_index.
  destruct (Z.ltb_spec 12 (month dt + -1)); [lia|].
  destruct (Z.ltb_spec (month dt + -1) 1).
  - rewrite Hd, first_day_not_clipped.
    f_equal; Z.div_mod_to_equations; lia.
  - rewrite Hd, first_day_not_clipped.
    f_equal; Z.div_mod_to_equations; lia.
Qed.

(** C4: for every calendar instant, [get_last_two_complete_months] returns the
    first of the month two months before and the first of the month one month
    before the month of that instant (each at the instant's time of day); for
    an instant in March 2026 these are 1 January 2026 and 1 February 2026. *)
Theorem get_last_two_complete_months_correct (today : datetime) :
  valid_datetime today ->
  get_last_two_complete_months today =
    (month_start_before today 2, month_start_before today 1) /\
  (year today = 2026 -> month today = 3 ->
   get_last_two_complete_months today =
     (mk_datetime 2026 1 1 (time today), mk_datetime 2026 2 1 (time today))).
Proof.
  intros (Hm & _ & _). clear np_seed yf_history.
  assert (E : get_last_two_complete_months today =
              (month_start_before today 2, month_start_before today 1)).
  { unfold get_last_two_complete_months.
    rewrite (month_back_from_first (replace_day today 1)) by (simpl; lia).
    rewrite month_back_from_first; simpl.
    - unfold month_start_before, month_index. simpl.
      f_equal; f_equal; Z.div_mod_to_equations; lia.
    - unfold month_index. simpl. Z.div_mod_to_equations; lia.
    - reflexivity. }
  split; [exact E|].
  intros Hy H3. rewrite E. unfold month_start_before, month_index.
  rewrite Hy, H3. reflexivity.
Qed.

(** *** The month range *)

Lemma dt_leb_month_index (a b : datetime) :
  1 <= month a <= 12 -> 1 <= month b <= 12 ->
  dt_leb a b = true -> month_index a <= month_index b.
Proof.
  intros Ha Hb. unfold dt_leb, dt_compare, month_index.
  destruct (Z.compare_spec (year a) (year b)) as [Hy | Hy | Hy];
    [|intros _; nia|discriminate].
  destruct (Z.compare_spec (month a) (month b)) as [Hm | Hm | Hm];
    [intros _; nia|intros _; nia|discriminate].
Qed.

Lemma next_MS_month_index (dt : datetime) :
  1 <= month dt <= 12 ->
  month_index (next_MS dt) = month_index dt + 1 /\ 1 <= month (next_MS dt) <= 12.
Proof.
  intros Hm. unfold next_MS, add_relativedelta_months, month_index.
  destruct (Z.ltb_spec 12 (month dt + 1)); simpl; [lia|].
  destruct (Z.ltb_spec (month dt + 1) 1); simpl; lia.
Qed.

(** The fuel [date_range_MS] gives its loop is enough: with more fuel the
    loop returns the same dates. *)
Lemma range_loop_fuel (n extra : nat) (cur stop : datetime) :
  1 <= month cur <= 12 -> 1 <= month stop <= 12 ->
  month_index stop - month_index cur + 1 <= Z.of_nat n ->
  range_loop (n + extra) cur stop = range_loop n cur stop.
Proof.
  revert cur. induction n as [|n IH]; intros cur Hc Hs Hn.
  - simpl. destruct extra as [|extra]; [reflexivity|]. simpl.
    destruct (dt_leb cur stop) eqn:E; [|reflexivity].
    apply dt_leb_month_index in E; [lia | exact Hc | exact Hs].
  - simpl. destruct (dt_leb cur stop); [|reflexivity].
    destruct (next_MS_month_index cur Hc) as [Hi Hm].
    f_equal. apply IH; [exact Hm | exact Hs | lia].
Qed.

(** *** The pair the two-month comparison looks at *)

Lemma filter_head {A : Type} (f : A -> bool) (l : list A) (x : A) (xs : list A) :
  List.filter f l = x :: xs ->
  exists i : nat,
    l !! i = Some x /\ f x = true /\
    forall (j : nat) (y : A), (j < i)%nat -> l !! j = Some y -> f y = false.
Proof.
  induction l as [|a l IH]; simpl; [discriminate|].
  destruct (f a) eqn:Fa.
  - intros [= -> _]. exists O. split; [reflexivity|]. split; [exact Fa|].
    intros j y Hj. lia.
  - intros H. destruct (IH H) as (i & Hi & Fx & Hfirst).
    exists (S i). split; [exact Hi|]. split; [exact Fx|].
    intros [|j] y Hj Hy; simpl in Hy.
    + congruence.
    + apply (Hfirst j); [lia | exact Hy].
Qed.

Lemma filter_nil_iff {A : Type} (f : A -> bool) (l : list A) :
  List.filter f l = [] <-> forall x, x ∈ l -> f x = false.
Proof.
  split.
  - intros H x Hx. destruct (f x) eqn:Fx; [|reflexivity].
    assert (Hin : In x (List.filter f l)).
    { apply filter_In. split; [apply list_elem_of_In, Hx | exact Fx]. }
    rewrite H in Hin. destruct Hin.
  - intros H. destruct (List.filter f l) as [|x xs] eqn:E; [reflexivity|].
    assert (Hin : In x (List.filter f l)) by (rewrite E; left; reflexivity).
    apply filter_In in Hin as [Hin Fx].
    apply list_elem_of_In in Hin. rewrite (H x Hin) in Fx. discriminate.
Qed.

Lemma frame_empty_false {A : Type} (l : list A) :
  frame_empty l = false <-> l <> [].
Proof. destruct l; simpl; split; congruence. Qed.

(** The pair the two-month comparison looks at, case by case, in terms of
    the test [in_month] on the processed rows. *)
Lemma compared_pair_cases (data : list bar) :
  let df := process_data data in
  let pms := (get_last_two_complete_months now).1 in
  let cms := (get_last_two_complete_months now).2 in
  ((length data < 2)%nat -> generate_signal_for_last_two_months data = Ok None) /\
  ((2 <= length data)%nat ->
   ((exists r, r ∈ df /\ in_month pms r = true) ->
    (exists r, r ∈ df /\ in_month cms r = true) ->
    exists p c : cbar,
      first_in_month pms df p /\ first_in_month cms df c /\
      compared_pair df = Some (p, c) /\
      generate_signal_for_last_two_months data = month_signal_for_pair p c) /\
   ((forall r, r ∈ df -> in_month pms r = false) \/
    (forall r, r ∈ df -> in_month cms r = false) ->
    exists p c : cbar,
      df !! (length df - 2)%nat = Some p /\ df !! (length df - 1)%nat = Some c /\
      compared_pair df = Some (p, c) /\
      generate_signal_for_last_two_months data = month_signal_for_pair p c /\
      (chronological data ->
       forall (j : nat) (r : cbar), df !! j = Some r ->
         dt_leb (date (row r)) (date (row c)) = true /\
         ((j < length df - 1)%nat ->
          dt_leb (date (row r)) (date (row p)) = true)))).
Proof.
  intros df pms cms. split.
  - intros Hlen. unfold generate_signal_for_last_two_months.
    destruct (Nat.ltb_spec (length data) 2); [reflexivity | lia].
  - intros Hlen.
    assert (Hdf : length df = length data) by apply process_data_length.
    assert (Hgen : generate_signal_for_last_two_months data =
                   match compared_pair df with
                   | None => Ok None
                   | Some (previous, current) =>
                       month_signal_for_pair previous current
                   end).
    { unfold generate_signal_for_last_two_months.
      destruct (Nat.ltb_spec (length data) 2); [lia | reflexivity]. }
    assert (Hcp : compared_pair df =
      if frame_empty (List.filter (in_month pms) df)
         || frame_empty (List.filter (in_month cms) df) then
        if (length df <? 2)%nat then None
        else
          match df !! (length df - 2)%nat, df !! (length df - 1)%nat with
          | Some previous, Some current => Some (previous, current)
          | _, _ => None
          end
      else
        match List.filter (in_month pms) df, List.filter (in_month cms) df with
        | previous :: _, current :: _ => Some (previous, current)
        | _, _ => None
        end).
    { unfold compared_pair, pms, cms.
      destruct (get_last_two_complete_months now); reflexivity. }
    split.
    + intros (rp & Hrp & Frp) (rc & Hrc & Frc).
      destruct (List.filter (in_month pms) df) as [|p ps] eqn:Ep.
      { rewrite filter_nil_iff in Ep. rewrite (Ep rp Hrp) in Frp. discriminate. }
      destruct (List.filter (in_month cms) df) as [|c cs] eqn:Ec.
      { rewrite filter_nil_iff in Ec. rewrite (Ec rc Hrc) in Frc. discriminate. }
      exists p, c. simpl in Hcp.
      split; [exact (filter_head _ _ _ _ Ep)|].
      split; [exact (filter_head _ _ _ _ Ec)|].
      split; [exact Hcp|]. rewrite Hgen, Hcp. reflexivity.
    + intros Hnone.
      assert (Hfb : frame_empty (List.filter (in_month pms) df)
                    || frame_empty (List.filter (in_month cms) df) = true).
      { apply orb_true_iff.
        destruct Hnone as [H | H]; apply filter_nil_iff in H; rewrite H; auto. }
      rewrite Hfb in Hcp.
      destruct (Nat.ltb_spec (length df) 2); [lia|].
      destruct (df !! (length df - 2)%nat) as [p|] eqn:Hp;
        [|apply lookup_ge_None in Hp; lia].
      destruct (df !! (length df - 1)%nat) as [c|] eqn:Hc;
        [|apply lookup_ge_None in Hc; lia].
      exists p, c. do 2 (split; [reflexivity|]).
      split; [exact Hcp|]. split; [rewrite Hgen, Hcp; reflexivity|].
      intros Hchron j r Hr.
      pose proof (lookup_lt_Some _ _ _ Hr) as Hj.
      apply process_data_elem in Hr as (b & Hb & ->).
      apply process_data_elem in Hp as (bp & Hbp & ->).
      apply process_data_elem in Hc as (bc & Hbc & ->).
      rewrite !classified_row. split.
      * apply (Hchron j (length df - 1)%nat); [lia | exact Hb | exact Hbc].
      * intros Hj'.
        apply (Hchron j (length df - 2)%nat); [lia | exact Hb | exact Hbp].
Qed.

(** *** The classifier leaves its input alone *)

Lemma process_data_row (data : list bar) : row <$> process_data data = data.
Proof.
  apply list_eq. intros i. rewrite list_lookup_fmap.
  destruct (data !! i) as [b|] eqn:Hb.
  - rewrite (process_data_lookup _ _ _ Hb). reflexivity.
  - apply lookup_ge_None in Hb.
    rewrite (proj2 (lookup_ge_None _ _)); [reflexivity|].
    rewrite process_data_length. exact Hb.
Qed.

Lemma in_month_iff (anchor : datetime) (r : cbar) :
  in_month anchor r = true <-> same_month anchor (row r).
Proof.
  unfold in_month, same_month. rewrite andb_true_iff, !Z.eqb_eq. reflexivity.
Qed.

Lemma in_month_false_iff (anchor : datetime) (r : cbar) :
  in_month anchor r = false <-> ~ same_month anchor (row r).
Proof. rewrite <- in_month_iff. destruct (in_month anchor r); split; congruence. Qed.

Lemma first_in_month_bar (anchor : datetime) (data : list bar) (r : cbar) :
  first_in_month anchor (process_data data) r ->
  exists i : nat,
    process_data data !! i = Some r /\ first_bar_of_month anchor data i (row r).
Proof.
  intros (i & Hi & Hin & Hmin). exists i. split; [exact Hi|].
  pose proof Hi as Hr. apply process_data_elem in Hr as (b & Hb & ->).
  rewrite classified_row. split; [exact Hb|].
  split; [apply in_month_iff in Hin; exact Hin|].
  intros j b' Hj Hb'. rewrite <- (classified_row
    (match j with O => None | S k => data !! k end) b').
  apply in_month_false_iff. apply (Hmin j); [exact Hj|].
  apply process_data_lookup, Hb'.
Qed.

Lemma same_month_row (anchor : datetime) (data : list bar) :
  ((exists b, b ∈ data /\ same_month anchor b) ->
   exists r, r ∈ process_data data /\ in_month anchor r = true) /\
  ((forall b, b ∈ data -> ~ same_month anchor b) ->
   forall r, r ∈ process_data data -> in_month anchor r = false).
Proof.
  split.
  - intros (b & Hb & Hs). apply list_elem_of_lookup in Hb as (i & Hi).
    eexists. split.
    + apply list_elem_of_lookup. exists i. apply process_data_lookup, Hi.
    + apply in_month_iff. exact Hs.
  - intros Hno r Hr. apply process_data_in in Hr as (prev & b & Hb & ->).
    apply in_month_false_iff. apply Hno, Hb.
Qed.

(** C2 (as amended): the processed rows are the bars in the order given.
    With fewer than two bars the two-month comparison returns no signal and
    raises nothing.  Otherwise, when both completed months have a bar (a bar
    whose year and month are those of the month), it compares the first such
    bar of the earlier month with the first such bar of the later month; when
    one of the months has no bar, it compares the last two bars in the order
    given, without sorting them: they are the two most recent bars when the
    bars come in the order of their dates. *)
Theorem anchored_pair_selection (data : list bar) :
  let df := process_data data in
  let pms := (get_last_two_complete_months now).1 in
  let cms := (get_last_two_complete_months now).2 in
  row <$> df = data /\
  (forall (anchor : datetime) (r : cbar),
     in_month anchor r = true <->
     year (date (row r)) = year anchor /\ month (date (row r)) = month anchor) /\
  ((length data < 2)%nat -> generate_signal_for_last_two_months data = Ok None) /\
  ((2 <= length data)%nat ->
   ((exists b, b ∈ data /\ same_month pms b) ->
    (exists b, b ∈ data /\ same_month cms b) ->
    exists (i j : nat) (p c : cbar),
      df !! i = Some p /\ df !! j = Some c /\
      first_bar_of_month pms data i (row p) /\
      first_bar_of_month cms data j (row c) /\
      compared_pair df = Some (p, c) /\
      generate_signal_for_last_two_months data = month_signal_for_pair p c) /\
   ((forall b, b ∈ data -> ~ same_month pms b) \/
    (forall b, b ∈ data -> ~ same_month cms b) ->
    exists p c : cbar,
      df !! (length data - 2)%nat = Some p /\
      df !! (length data - 1)%nat = Some c /\
      data !! (length data - 2)%nat = Some (row p) /\
      data !! (length data - 1)%nat = Some (row c) /\
      compared_pair df = Some (p, c) /\
      generate_signal_for_last_two_months data = month_signal_for_pair p c /\
      (chronological data ->
       forall (j : nat) (b : bar), data !! j = Some b ->
         dt_leb (date b) (date (row c)) = true /\
         ((j < length data - 1)%nat ->
          dt_leb (date b) (date (row p)) = true)))).
Proof.
  intros df pms cms.
  destruct (compared_pair_cases data) as [Hshort Hlong].
  fold df pms cms in Hlong.
  assert (Hdf : length df = length data) by apply process_data_length.
  split; [apply process_data_row|].
  split; [intros anchor r; apply in_month_iff|].
  split; [exact Hshort|].
  intros Hlen. destruct (Hlong Hlen) as [Hanch Hfall]. split.
  - intros Hp Hc.
    destruct (Hanch (proj1 (same_month_row pms data) Hp)
                    (proj1 (same_month_row cms data) Hc))
      as (p & c & Fp & Fc & Hpair & Hgen).
    apply first_in_month_bar in Fp as (i & Hi & Fp).
    apply first_in_month_bar in Fc as (j & Hj & Fc).
    exists i, j, p, c. repeat (split; [assumption|]). exact Hgen.
  - intros Hnone.
    destruct Hfall as (p & c & Hp & Hc & Hpair & Hgen & Hchron).
    { destruct Hnone as [H | H]; [left | right];
        apply same_month_row, H. }
    rewrite Hdf in Hp, Hc.
    exists p, c. split; [exact Hp|]. split; [exact Hc|].
    pose proof Hp as Hp'. apply process_data_elem in Hp' as (bp & Hbp & Ep).
    pose proof Hc as Hc'. apply process_data_elem in Hc' as (bc & Hbc & Ec).
    split; [rewrite Ep, classified_row; exact Hbp|].
    split; [rewrite Ec, classified_row; exact Hbc|].
    split; [exact Hpair|]. split; [exact Hgen|].
    intros Hch j b Hb.
    destruct (Hchron Hch j _ (process_data_lookup _ _ _ Hb)) as [H1 H2].
    rewrite classified_row in H1, H2. rewrite Hdf in H2. split; assumption.
Qed.

Lemma process_data_obj_run (h : gmap nat frame) (data : nat) (f : frame) :
  h !! data = Some f ->
  process_data_obj data h =
    Some (fresh (dom h),
          <[fresh (dom h) := ProcessedFrame (process_data (frame_bars f))]> h).
Proof.
  intros Hf. unfold process_data_obj, df_copy, df_assign_derived.
  rewrite Hf. simpl. rewrite alter_insert_eq. reflexivity.
Qed.

Lemma fresh_frame_unused (h : gmap nat frame) : h !! fresh (dom h) = None.
Proof. apply not_elem_of_dom, is_fresh. Qed.

(** C6: [process_data] does not change the frame it is given nor any other
    frame that exists; called twice on the same frame it returns two new
    frames with identical rows; the rows it returns carry the input bars in
    the input's order; and for a frame of one bar it returns one row whose
    previous-open, previous-close and previous-colour fields are absent. *)
Theorem process_data_pure (h : gmap nat frame) (data : nat) (f : frame) :
  h !! data = Some f ->
  exists (df1 : nat) (h1 : gmap nat frame) (df2 : nat) (h2 : gmap nat frame),
    process_data_obj data h = Some (df1, h1) /\
    process_data_obj data h1 = Some (df2, h2) /\
    (forall (l : nat) (g : frame),
       h !! l = Some g -> h1 !! l = Some g /\ h2 !! l = Some g) /\
    h !! df1 = None /\ h1 !! df2 = None /\
    h1 !! df1 = Some (ProcessedFrame (process_data (frame_bars f))) /\
    h2 !! df1 = Some (ProcessedFrame (process_data (frame_bars f))) /\
    h2 !! df2 = Some (ProcessedFrame (process_data (frame_bars f))) /\
    row <$> process_data (frame_bars f) = frame_bars f /\
    (forall b : bar, frame_bars f = [b] ->
     exists r : cbar,
       process_data (frame_bars f) = [r] /\ row r = b /\
       prev_open r = None /\ prev_close r = None /\ prev_color r = None).
Proof.
  intros Hf.
  set (out := ProcessedFrame (process_data (frame_bars f))).
  set (df1 := fresh (dom h)). set (h1 := <[df1 := out]> h).
  set (df2 := fresh (dom h1)). set (h2 := <[df2 := out]> h1).
  assert (Hn1 : h !! df1 = None) by apply fresh_frame_unused.
  assert (Hn2 : h1 !! df2 = None) by apply fresh_frame_unused.
  assert (Hne : df1 <> data) by congruence.
  assert (Hf1 : h1 !! data = Some f).
  { unfold h1. rewrite lookup_insert_ne by exact Hne. exact Hf. }
  exists df1, h1, df2, h2.
  split; [apply process_data_obj_run, Hf|].
  split; [apply process_data_obj_run, Hf1|].
  assert (Hkeep1 : forall l g, h !! l = Some g -> h1 !! l = Some g).
  { intros l g Hl. unfold h1. rewrite lookup_insert_ne by congruence. exact Hl. }
  assert (Hkeep2 : forall l g, h1 !! l = Some g -> h2 !! l = Some g).
  { intros l g Hl. unfold h2. rewrite lookup_insert_ne by congruence. exact Hl. }
  assert (H11 : h1 !! df1 = Some out) by (unfold h1; apply lookup_insert_eq).
  split; [intros l g Hl; split; [|apply Hkeep2]; apply Hkeep1, Hl|].
  do 2 (split; [assumption|]).
  split; [exact H11|]. split; [apply Hkeep2, H11|].
  split; [unfold h2; apply lookup_insert_eq|].
  split; [apply process_data_row|].
  intros b ->. eexists. split; [reflexivity|]. simpl. repeat split.
Qed.

(** *** What a call leaves in the world *)

Lemma generate_mock_data_run (sym : string) (start_date end_date : option datetime)
    (w : world) :
  _generate_mock_data sym start_date end_date w =
    (Ok (mock_seeded sym start_date end_date).1,
     {| use_mock_data := use_mock_data w;
        stocks_data :=
          <[sym := (mock_seeded sym start_date end_date).1]> (stocks_data w);
        np_random := (mock_seeded sym start_date end_date).2 |}).
Proof.
  unfold _generate_mock_data, mock_seeded.
  destruct (get_last_two_complete_months now) as [prev_month last_month].
  unfold bind, seed, draw, cache_frame, ret. simpl.
  destruct (np_uniform _ _ _) as [base_price g]. simpl.
  destruct (mock_rows _ _ _ _) as [rows g']. reflexivity.
Qed.

(** C8: the synthetic generator, called for a symbol without explicit dates,
    returns the same bars whatever the analyzer's cache and numpy's generator
    held before the call; in particular a second call, made in the world the
    first call left, returns the bars of the first. *)
Theorem mock_data_deterministic (sym : string) (w1 w2 : world) :
  exists rows : list bar,
    (_generate_mock_data sym None None w1).1 = Ok rows /\
    (_generate_mock_data sym None None w2).1 = Ok rows /\
    (_generate_mock_data sym None None
       (_generate_mock_data sym None None w1).2).1 = Ok rows.
Proof.
  exists (mock_seeded sym None None).1.
  rewrite !generate_mock_data_run. repeat split.
Qed.

Lemma fetch_run (sym : string) (w : world) :
  exists w' : world,
    fetch_candlestick_data sym None None "1mo" w
      = (Ok (fetched (use_mock_data w) sym), w') /\
    use_mock_data w' = use_mock_data w.
Proof.
  unfold fetch_candlestick_data, fetched.
  destruct (use_mock_data w) eqn:Hm.
  - unfold bind. rewrite generate_mock_data_run. unfold ret.
    eexists. split; [reflexivity|]. simpl. exact Hm.
  - unfold try_except, fetch_from_provider, bind, lift. simpl.
    destruct (yf_history _ _ _ _) as [[|q qs]|e]; simpl.
    + exists w. split; [reflexivity | exact Hm].
    + eexists. split; [reflexivity|]. simpl. exact Hm.
    + exists w. split; [reflexivity | exact Hm].
Qed.

Lemma analyze_stock_run (sym : string) (w : world) :
  exists w' : world,
    analyze_stock sym w = (outcome (use_mock_data w) sym, w') /\
    use_mock_data w' = use_mock_data w.
Proof.
  destruct (fetch_run sym w) as (w' & Hf & Hm).
  exists w'. split; [|exact Hm].
  unfold analyze_stock, bind. rewrite Hf. reflexivity.
Qed.

Lemma scan_symbol_run (r : results) (sym : string) (w : world) :
  exists w' : world,
    scan_symbol r sym w
      = (Ok (record_outcome r sym (outcome (use_mock_data w) sym)), w') /\
    use_mock_data w' = use_mock_data w.
Proof.
  destruct (analyze_stock_run sym w) as (w' & Ha & Hm).
  exists w'. split; [|exact Hm].
  unfold scan_symbol, try_except, scan_try, bind. rewrite Ha.
  destruct (outcome _ _); reflexivity.
Qed.

Lemma scan_loop_run (stocks : list string) (r : results) (w : world) :
  exists w' : world,
    scan_loop stocks r w
      = (Ok (fold_left
               (fun r sym => record_outcome r sym (outcome (use_mock_data w) sym))
               stocks r), w') /\
    use_mock_data w' = use_mock_data w.
Proof.
  revert r w. induction stocks as [|sym stocks IH]; intros r w; simpl.
  - exists w. split; reflexivity.
  - destruct (scan_symbol_run r sym w) as (w1 & Hs & Hm1).
    destruct (IH (record_outcome r sym (outcome (use_mock_data w) sym)) w1)
      as (w2 & Hl & Hm2).
    exists w2. split; [|congruence].
    unfold bind. rewrite Hs, Hl, Hm1. reflexivity.
Qed.

(** *** The lists of a scan *)

Lemma record_outcome_fields (r : results) (sym : string) (o : result analysis_result) :
  scan_time (record_outcome r sym o) = scan_time r /\
  total_stocks (record_outcome r sym o) = total_stocks r /\
  errors (record_outcome r sym o) = errors r ++ option_list (error_entry_of sym o) /\
  all_stocks (record_outcome r sym o) = all_stocks r ++ option_list (success_of o) /\
  bullish_stocks (record_outcome r sym o) =
    bullish_stocks r ++ List.filter is_bullish (option_list (success_of o)) /\
  bearish_stocks (record_outcome r sym o) =
    bearish_stocks r
      ++ List.filter (fun a => negb (is_bullish a)) (option_list (success_of o)) /\
  buy_signals (record_outcome r sym o) =
    buy_signals r ++ List.filter (has_signal BUY) (option_list (success_of o)) /\
  sell_signals (record_outcome r sym o) =
    sell_signals r ++ List.filter (has_signal SELL) (option_list (success_of o)).
Proof.
  destruct o as [[sym' message | a] | e]; simpl; rewrite ?app_nil_r;
    try (repeat split; fail).
  unfold is_bullish, has_signal.
  destruct (current_trend a), (latest_signal a) as [s|];
    try destruct (ms_type s); simpl; rewrite ?app_nil_r; repeat split.
Qed.

(** The results after the loop, over the outcomes of the symbols in order. *)
Lemma scan_fold_fields (mock : bool) (stocks : list string) (r : results) :
  let r' := fold_left (fun r sym => record_outcome r sym (outcome mock sym)) stocks r in
  let successes := omap (fun sym => success_of (outcome mock sym)) stocks in
  scan_time r' = scan_time r /\
  total_stocks r' = total_stocks r /\
  errors r' = errors r ++ omap (fun sym => error_entry_of sym (outcome mock sym)) stocks /\
  all_stocks r' = all_stocks r ++ successes /\
  bullish_stocks r' = bullish_stocks r ++ List.filter is_bullish successes /\
  bearish_stocks r' =
    bearish_stocks r ++ List.filter (fun a => negb (is_bullish a)) successes /\
  buy_signals r' = buy_signals r ++ List.filter (has_signal BUY) successes /\
  sell_signals r' = sell_signals r ++ List.filter (has_signal SELL) successes.
Proof.
  revert r. induction stocks as [|sym stocks IH]; intros r; simpl.
  - rewrite !app_nil_r. repeat split.
  - destruct (IH (record_outcome r sym (outcome mock sym)))
      as (H1 & H2 & H3 & H4 & H5 & H6 & H7 & H8).
    destruct (record_outcome_fields r sym (outcome mock sym))
      as (E1 & E2 & E3 & E4 & E5 & E6 & E7 & E8).
    rewrite H1, H2, H3, H4, H5, H6, H7, H8, E1, E2, E3, E4, E5, E6, E7, E8.
    rewrite <- !app_assoc.
    destruct (outcome mock sym) as [[sym' message | a] | e]; simpl;
      try (repeat split; fail).
    destruct (is_bullish a), (has_signal BUY a), (has_signal SELL a);
      simpl; repeat split.
Qed.

(** The report of a scan, over the outcomes of the scanned symbols. *)
Lemma scan_all_stocks_run (stock_list : option (list string)) (w : world) :
  let stocks := stocks_or_default stock_list in
  let successes := omap (fun sym => success_of (outcome (use_mock_data w) sym)) stocks in
  exists (rep : report) (w' : world),
    scan_all_stocks stock_list w = (Ok rep, w') /\
    total_stocks rep = length stocks /\
    errors rep =
      omap (fun sym => error_entry_of sym (outcome (use_mock_data w) sym)) stocks /\
    all_stocks rep = successes /\
    bullish_stocks rep = List.filter is_bullish successes /\
    bearish_stocks rep = List.filter (fun a => negb (is_bullish a)) successes /\
    buy_signals rep = sort_desc strength_key (List.filter (has_signal BUY) successes) /\
    sell_signals rep = sort_desc strength_key (List.filter (has_signal SELL) successes) /\
    total_scanned (summary_of rep) = length (all_stocks rep) /\
    buy_signals_count (summary_of rep) = length (buy_signals rep) /\
    sell_signals_count (summary_of rep) = length (sell_signals rep) /\
    bullish_count (summary_of rep) = length (bullish_stocks rep) /\
    bearish_count (summary_of rep) = length (bearish_stocks rep) /\
    error_count (summary_of rep) = length (errors rep).
Proof.
  intros stocks successes. unfold scan_all_stocks. fold stocks.
  set (r0 := mk_results now (length stocks) [] [] [] [] [] []).
  destruct (scan_loop_run stocks r0 w) as (w' & Hl & _).
  destruct (scan_fold_fields (use_mock_data w) stocks r0)
    as (_ & H2 & H3 & H4 & H5 & H6 & H7 & H8).
  fold successes in H4, H5, H6, H7, H8.
  eexists _, w'. split.
  { unfold bind, ret. rewrite Hl. reflexivity. }
  simpl. rewrite H2, H3, H4, H5, H6, H7, H8. simpl. repeat split.
Qed.

(** The world a call starts in decides the outcome only through the mode. *)
Lemma analyze_stock_outcome (sym : string) (w : world) :
  (analyze_stock sym w).1 = outcome (use_mock_data w) sym.
Proof. destruct (analyze_stock_run sym w) as (w' & -> & _). reflexivity. Qed.

Lemma fetch_outcome (sym : string) (w : world) :
  (fetch_candlestick_data sym None None "1mo" w).1
    = Ok (fetched (use_mock_data w) sym).
Proof. destruct (fetch_run sym w) as (w' & -> & _). reflexivity. Qed.

(** *** Sorting *)

Lemma insert_desc_perm {A : Type} (key : A -> Q) (x : A) (l : list A) :
  insert_desc key x l ≡ₚ x :: l.
Proof.
  induction l as [|y l IH]; simpl; [reflexivity|].
  destruct (Qle_bool (key y) (key x)); [reflexivity|].
  rewrite IH. apply perm_swap.
Qed.

Lemma sort_desc_perm {A : Type} (key : A -> Q) (l : list A) :
  sort_desc key l ≡ₚ l.
Proof.
  induction l as [|x l IH]; simpl; [reflexivity|].
  rewrite insert_desc_perm, IH. reflexivity.
Qed.

Lemma insert_desc_sorted {A : Type} (key : A -> Q) (x : A) (l : list A) :
  StronglySorted (stronger_first key) l ->
  StronglySorted (stronger_first key) (insert_desc key x l).
Proof.
  induction l as [|y l IH]; intros Hs; simpl.
  - constructor; constructor.
  - inversion Hs as [|? ? Hl Hy]; subst.
    destruct (Qle_bool (key y) (key x)) eqn:E.
    + apply Qle_bool_iff in E.
      constructor; [exact Hs|].
      constructor; [exact E|].
      eapply Forall_impl; [exact Hy|].
      intros z Hz. unfold stronger_first in *. lra.
    + assert (Hlt : (key x <= key y)%Q).
      { destruct (Qlt_le_dec (key x) (key y)) as [H | H]; [lra|].
        apply Qle_bool_iff in H. congruence. }
      constructor; [apply IH, Hl|].
      rewrite insert_desc_perm. constructor; [exact Hlt | exact Hy].
Qed.

Lemma sort_desc_sorted {A : Type} (key : A -> Q) (l : list A) :
  StronglySorted (stronger_first key) (sort_desc key l).
Proof.
  induction l as [|x l IH]; simpl; [constructor|].
  apply insert_desc_sorted, IH.
Qed.

(** In a sorted list, an earlier entry is at least as strong as a later one. *)
Lemma sorted_lookup {A : Type} (key : A -> Q) (l : list A) (i j : nat) (x y : A) :
  StronglySorted (stronger_first key) l ->
  (i < j)%nat -> l !! i = Some x -> l !! j = Some y ->
  (key y <= key x)%Q.
Proof.
  intros Hs. revert i j. induction Hs as [|a l Hl IH Ha]; intros i j Hij Hx Hy.
  - discriminate.
  - destruct j as [|j]; [lia|]. simpl in Hy.
    destruct i as [|i]; simpl in Hx.
    + injection Hx as ->.
      rewrite Forall_forall in Ha. apply Ha.
      eapply list_elem_of_lookup_2. exact Hy.
    + apply (IH i j); [lia | exact Hx | exact Hy].
Qed.

(** *** One analysis *)

Lemma two_month_signal_no_raise (data : list bar) :
  Forall nonneg_prices data ->
  exists latest : option month_signal,
    generate_signal_for_last_two_months data = Ok latest.
Proof.
  intros Hdata. rewrite Forall_forall in Hdata.
  unfold generate_signal_for_last_two_months.
  destruct (length data <? 2)%nat; [eexists; reflexivity|].
  destruct (compared_pair (process_data data)) as [[p c]|] eqn:Hpair;
    [|eexists; reflexivity].
  apply compared_pair_in in Hpair as [Hp Hc].
  apply process_data_in in Hp as (pp & a & Hina & ->).
  apply process_data_in in Hc as (pc & b & Hinb & ->).
  destruct (month_signal_for_pair_strength pp pc a b (Hdata _ Hina) (Hdata _ Hinb))
    as [E | (s & E & _)]; rewrite E; eexists; reflexivity.
Qed.

Lemma process_data_last (data : list bar) (current : cbar) :
  last (process_data data) = Some current ->
  exists b : bar,
    last data = Some b /\
    is_green current = Qlt_bool (open b) (close b) /\
    candle_color current = candle_color (derive b) /\
    row current = b.
Proof.
  rewrite !last_lookup, process_data_length. intros Hc.
  apply process_data_elem in Hc as (b & Hb & ->).
  exists b. split; [exact Hb|]. repeat split.
Qed.

(** A successful analysis reports the colour of the latest fetched bar. *)
Lemma analyze_fetched_success (sym : string) (fetched_data : option (list bar))
    (a : analysis) :
  analyze_fetched sym fetched_data = Ok (AnalysisSuccess a) ->
  exists (data : list bar) (b : bar),
    fetched_data = Some data /\ last data = Some b /\
    a_symbol a = sym /\
    current_trend a = (if Qlt_bool (open b) (close b) then bullish else bearish) /\
    a_candle_color a = candle_color (derive b) /\
    generate_signal_for_last_two_months data = Ok (latest_signal a).
Proof.
  unfold analyze_fetched.
  destruct fetched_data as [[|b0 data]|]; try discriminate.
  destruct (generate_signal_for_last_two_months (b0 :: data)) as [latest|e] eqn:Hsig;
    [|discriminate].
  destruct (last (process_data (b0 :: data))) as [current|] eqn:Hl; [|discriminate].
  destruct (get_last_two_complete_months now) as [pm cm].
  intros [= <-]. simpl.
  apply process_data_last in Hl as (b & Hb & Hg & Hcol & _).
  exists (b0 :: data), b. rewrite Hg, Hcol.
  split; [reflexivity|]. split; [exact Hb|]. repeat split. exact Hsig.
Qed.

(** On a fetched frame that is not empty and has no negative price the
    analysis succeeds. *)
Lemma analyze_fetched_valid (sym : string) (data : list bar) :
  data <> [] -> Forall nonneg_prices data ->
  exists a : analysis, analyze_fetched sym (Some data) = Ok (AnalysisSuccess a).
Proof.
  intros Hne Hdata. unfold analyze_fetched.
  destruct data as [|b0 data]; [congruence|].
  destruct (two_month_signal_no_raise _ Hdata) as (latest & ->).
  destruct (last (process_data (b0 :: data))) as [current|] eqn:Hl.
  - destruct (get_last_two_complete_months now). eexists. reflexivity.
  - rewrite last_lookup, process_data_length in Hl.
    apply lookup_ge_None in Hl. rewrite process_data_length in Hl.
    simpl in Hl. lia.
Qed.

Lemma trend_colour (b : bar) :
  (if Qlt_bool (open b) (close b) then bullish else bearish) = bullish
  <-> candle_color (derive b) = green.
Proof.
  simpl. destruct (Qlt_bool (open b) (close b)), (Qlt_bool (close b) (open b));
    split; congruence.
Qed.

Lemma filter_partition_perm {A : Type} (f : A -> bool) (l : list A) :
  l ≡ₚ List.filter f l ++ List.filter (fun x => negb (f x)) l.
Proof.
  induction l as [|x l IH]; simpl; [reflexivity|].
  destruct (f x); simpl.
  - constructor. exact IH.
  - rewrite <- Permutation_middle. constructor. exact IH.
Qed.

Lemma elem_of_filter_bool {A : Type} (f : A -> bool) (l : list A) (x : A) :
  x ∈ List.filter f l <-> x ∈ l /\ f x = true.
Proof. rewrite !list_elem_of_In. apply filter_In. Qed.

(** *** The report *)

Lemma success_in_scan (mock : bool) (stocks : list string) (a : analysis) :
  a ∈ omap (fun sym => success_of (outcome mock sym)) stocks ->
  exists sym : string, sym ∈ stocks /\ outcome mock sym = Ok (AnalysisSuccess a).
Proof.
  intros Ha. apply list_elem_of_omap in Ha as (sym & Hsym & Hs).
  exists sym. split; [exact Hsym|].
  destruct (outcome mock sym) as [[? ?|a']|e]; simpl in Hs; congruence.
Qed.

Lemma has_signal_iff (t : signal_type) (a : analysis) :
  has_signal t a = true <-> exists s, latest_signal a = Some s /\ ms_type s = t.
Proof.
  unfold has_signal. destruct (latest_signal a) as [s|].
  - destruct t, (ms_type s) eqn:E; split;
      try (intros _; exists s; split; [reflexivity | exact E]);
      try discriminate; try (intros _; reflexivity);
      intros (s' & [= <-] & Ht); congruence.
  - destruct t; split; try discriminate; intros (s & Hs & _); discriminate.
Qed.

(** C7: in the report of a scan, the buy-signal list and the sell-signal list
    hold the analyses with such a signal, each list ordered by the strength
    of the signal, strongest first, where an analysis without a signal would
    count as strength 0; so an analysis without a signal never stands before
    one whose signal has a positive strength. *)
Theorem signal_lists_sorted (stock_list : option (list string)) (w : world) :
  exists (rep : report) (w' : world),
    scan_all_stocks stock_list w = (Ok rep, w') /\
    buy_signals rep ≡ₚ List.filter (has_signal BUY) (all_stocks rep) /\
    sell_signals rep ≡ₚ List.filter (has_signal SELL) (all_stocks rep) /\
    StronglySorted (stronger_first strength_key) (buy_signals rep) /\
    StronglySorted (stronger_first strength_key) (sell_signals rep) /\
    (forall a : analysis, latest_signal a = None -> strength_key a = 0%Q) /\
    (forall (a : analysis) (s : month_signal),
       latest_signal a = Some s -> strength_key a = ms_strength s) /\
    (forall l : list analysis, l = buy_signals rep \/ l = sell_signals rep ->
     forall (i j : nat) (x y : analysis),
       (i < j)%nat -> l !! i = Some x -> l !! j = Some y ->
       (strength_key y <= strength_key x)%Q /\
       (exists sx sy : month_signal,
          latest_signal x = Some sx /\ latest_signal y = Some sy /\
          (ms_strength sy <= ms_strength sx)%Q) /\
       (forall s : month_signal,
          latest_signal y = Some s -> (0 < ms_strength s)%Q ->
          latest_signal x <> None)).
Proof.
  destruct (scan_all_stocks_run stock_list w)
    as (rep & w' & Hrun & _ & _ & Hall & _ & _ & Hbuy & Hsell & _).
  exists rep, w'. split; [exact Hrun|].
  rewrite Hbuy, Hsell, Hall.
  split; [apply sort_desc_perm|]. split; [apply sort_desc_perm|].
  split; [apply sort_desc_sorted|]. split; [apply sort_desc_sorted|].
  split.
  { intros a Ha. unfold strength_key. rewrite Ha. reflexivity. }
  split.
  { intros a s Ha. unfold strength_key. rewrite Ha. reflexivity. }
  intros l Hl i j x y Hij Hx Hy.
  assert (Hs : StronglySorted (stronger_first strength_key) l).
  { destruct Hl as [-> | ->]; apply sort_desc_sorted. }
  assert (Hsig : forall a : analysis, a ∈ l -> exists s, latest_signal a = Some s).
  { intros a Ha.
    destruct Hl as [-> | ->]; rewrite sort_desc_perm in Ha;
      apply elem_of_filter_bool in Ha as [_ Ha];
      apply has_signal_iff in Ha as (s & Hsome & _); exists s; exact Hsome. }
  pose proof (sorted_lookup _ _ _ _ _ _ Hs Hij Hx Hy) as Hle.
  split; [exact Hle|].
  split.
  { destruct (Hsig x (list_elem_of_lookup_2 _ _ _ Hx)) as (sx & Hsx).
    destruct (Hsig y (list_elem_of_lookup_2 _ _ _ Hy)) as (sy & Hsy).
    exists sx, sy. split; [exact Hsx|]. split; [exact Hsy|].
    unfold strength_key in Hle. rewrite Hsx, Hsy in Hle. exact Hle. }
  intros s Hys Hpos Hxn. unfold strength_key in Hle.
  rewrite Hys, Hxn in Hle. lra.
Qed.

(** C10: in the report of a scan, every analysis of the buy-signal list has a
    signal of type BUY and every analysis of the sell-signal list has a signal
    of type SELL; the bullish list holds the analyses whose trend is bullish
    and the bearish list all the others, so that together they hold every
    analysis once; and the trend of an analysis is bullish exactly when the
    latest fetched bar of its symbol is green. *)
Theorem scan_buckets (stock_list : option (list string)) (w : world) :
  exists (rep : report) (w' : world),
    scan_all_stocks stock_list w = (Ok rep, w') /\
    (forall a : analysis, a ∈ buy_signals rep ->
       exists s, latest_signal a = Some s /\ ms_type s = BUY) /\
    (forall a : analysis, a ∈ sell_signals rep ->
       exists s, latest_signal a = Some s /\ ms_type s = SELL) /\
    bullish_stocks rep = List.filter is_bullish (all_stocks rep) /\
    bearish_stocks rep = List.filter (fun a => negb (is_bullish a)) (all_stocks rep) /\
    all_stocks rep ≡ₚ bullish_stocks rep ++ bearish_stocks rep /\
    (forall a : analysis, a ∈ all_stocks rep ->
       (a ∈ bullish_stocks rep <-> current_trend a = bullish) /\
       (a ∈ bearish_stocks rep <-> current_trend a <> bullish) /\
       (current_trend a = bullish <-> a_candle_color a = green) /\
       exists (data : list bar) (b : bar),
         (fetch_candlestick_data (a_symbol a) None None "1mo" w).1 = Ok (Some data) /\
         last data = Some b /\
         (current_trend a = bullish <-> (open b < close b)%Q)).
Proof.
  destruct (scan_all_stocks_run stock_list w)
    as (rep & w' & Hrun & _ & _ & Hall & Hbull & Hbear & Hbuy & Hsell & _).
  exists rep, w'. split; [exact Hrun|].
  rewrite <- Hall in Hbull, Hbear, Hbuy, Hsell.
  split.
  { intros a Ha. rewrite Hbuy, sort_desc_perm in Ha.
    apply elem_of_filter_bool in Ha as [_ Ha]. apply has_signal_iff, Ha. }
  split.
  { intros a Ha. rewrite Hsell, sort_desc_perm in Ha.
    apply elem_of_filter_bool in Ha as [_ Ha]. apply has_signal_iff, Ha. }
  split; [exact Hbull|]. split; [exact Hbear|].
  split; [rewrite Hbull, Hbear; apply filter_partition_perm|].
  intros a Ha.
  rewrite Hbull, Hbear, !elem_of_filter_bool.
  assert (Hb : is_bullish a = true <-> current_trend a = bullish).
  { unfold is_bullish. destruct (current_trend a); split; congruence. }
  split; [rewrite Hb; tauto|].
  split.
  { rewrite negb_true_iff, <- not_true_iff_false, Hb. tauto. }
  rewrite Hall in Ha. apply success_in_scan in Ha as (sym & _ & Ho).
  apply analyze_fetched_success in Ho as (data & b & Hf & Hl & Hsym & Ht & Hc & _).
  split; [rewrite Ht, Hc; apply trend_colour|].
  exists data, b. rewrite Hsym, fetch_outcome, Hf.
  split; [reflexivity|]. split; [exact Hl|].
  rewrite Ht, <- Qlt_bool_iff.
  destruct (Qlt_bool (open b) (close b)); split; congruence.
Qed.

Lemma omap_cons {A B : Type} (f : A -> option B) (x : A) (l : list A) :
  omap f (x :: l) = option_list (f x) ++ omap f l.
Proof. simpl. destruct (f x); reflexivity. Qed.

Lemma contributions_split (mock : bool) (stocks : list string) :
  let cs := (fun sym => contribution sym (outcome mock sym)) <$> stocks in
  omap (fun sym => error_entry_of sym (outcome mock sym)) stocks = omap as_error cs /\
  omap (fun sym => success_of (outcome mock sym)) stocks = omap as_success cs /\
  Forall2 (fun sym c =>
             match c with
             | inl e => err_symbol e = sym
             | inr a => a_symbol a = sym
             end) stocks cs.
Proof.
  induction stocks as [|sym stocks (IH1 & IH2 & IH3)].
  - repeat split. constructor.
  - rewrite fmap_cons, !omap_cons, IH1, IH2.
    destruct (outcome mock sym) as [[sym' message|a]|e] eqn:Ho; simpl;
      (split; [reflexivity|]); (split; [reflexivity|]);
      constructor; try exact IH3; try reflexivity.
    apply analyze_fetched_success in Ho as (_ & _ & _ & _ & Hsym & _). exact Hsym.
Qed.

Lemma contributions_count (cs : list (error_entry + analysis)) :
  (length (omap as_error cs) + length (omap as_success cs))%nat = length cs.
Proof.
  induction cs as [|[e|a] cs IH]; [reflexivity| |];
    rewrite !omap_cons, !length_app; simpl; lia.
Qed.


(** *** Failures during a scan *)




Lemma filter_length_complement {A : Type} (f : A -> bool) (l : list A) :
  (length (List.filter f l) + length (List.filter (fun x => negb (f x)) l))%nat
    = length l.
Proof.
  rewrite <- length_app. symmetry. apply Permutation_length, filter_partition_perm.
Qed.




(** ** More of the analyzer *)

(** *** The classifier *)

(** X1: [process_data] returns one row per bar, in the order of the bars: the
    row at a position carries the bar at that position.  The previous-bar
    fields of the first row are absent, and those of every later row are the
    open, the close and the colour of the bar before it. *)
Theorem process_data_linkage (data : list bar) :
  length (process_data data) = length data /\
  row <$> process_data data = data /\
  (forall (i : nat) (b : bar),
     data !! i = Some b ->
     exists r : cbar, process_data data !! i = Some r /\ row r = b) /\
  (forall r : cbar,
     process_data data !! 0%nat = Some r ->
     prev_open r = None /\ prev_close r = None /\ prev_color r = None) /\
  (forall (i : nat) (r : cbar),
     process_data data !! S i = Some r ->
     exists (p : cbar) (b : bar),
       data !! i = Some b /\
       process_data data !! i = Some p /\ row p = b /\
       prev_open r = Some (open b) /\
       prev_close r = Some (close b) /\
       prev_color r = Some (candle_color p) /\
       candle_color p = candle_color (derive b)).
Proof.
  split; [apply process_data_length|].
  split; [apply process_data_row|].
  split.
  { intros i b Hb. eexists. split; [apply process_data_lookup, Hb | reflexivity]. }
  split.
  - intros r Hr. apply process_data_elem in Hr as (b & _ & ->). repeat split.
  - intros i r Hr. apply process_data_elem in Hr as (b & Hb & ->).
    destruct (data !! i) as [a|] eqn:Ha.
    + eexists _, a. split; [reflexivity|].
      split; [apply process_data_lookup, Ha|]. repeat split.
    + apply lookup_ge_None in Ha. apply lookup_lt_Some in Hb. lia.
Qed.

Lemma Qabs_zero_iff (x : Q) : (Qabs x == 0)%Q <-> (x == 0)%Q.
Proof.
  split; intros H.
  - destruct (Qlt_le_dec x 0) as [Hx | Hx].
    + rewrite Qabs_neg in H by lra. lra.
    + rewrite Qabs_pos in H by lra. exact H.
  - rewrite H. reflexivity.
Qed.

(** One conjunct of the colour facts of a row, once the two comparisons of
    its close and open are known. *)
Ltac colour_case Habs Hpos :=
  first
    [ exact Hpos | reflexivity | discriminate | congruence | lra
    | match goal with
      | H : (Qabs _ == 0)%Q |- _ => apply Habs in H; lra
      end
    | apply Habs; lra ].

(** X2: every row [process_data] returns has exactly one colour: green when
    the close is above the open, red when it is below, neutral when they are
    equal; the green and the red flag are never both set; and the body size is
    the absolute price change, zero exactly on a neutral row. *)
Theorem candle_colour_trichotomy (data : list bar) :
  Forall (fun r : cbar =>
            (candle_color r = green <-> (open (row r) < close (row r))%Q) /\
            (candle_color r = red <-> (close (row r) < open (row r))%Q) /\
            (candle_color r = neutral <-> (close (row r) == open (row r))%Q) /\
            (is_green r = true <-> candle_color r = green) /\
            (is_red r = true <-> candle_color r = red) /\
            is_green r && is_red r = false /\
            (body_size r == Qabs (price_change r))%Q /\
            (0 <= body_size r)%Q /\
            ((body_size r == 0)%Q <-> candle_color r = neutral))
         (process_data data).
Proof.
  apply Forall_forall. intros r Hr.
  apply process_data_in in Hr as (prev & b & _ & ->).
  rewrite classified_row.
  assert (Hg : Qlt_bool (open b) (close b) = true <-> (open b < close b)%Q)
    by apply Qlt_bool_iff.
  assert (Hr : Qlt_bool (close b) (open b) = true <-> (close b < open b)%Q)
    by apply Qlt_bool_iff.
  assert (Habs : (Qabs (close b - open b) == 0)%Q <-> (close b == open b)%Q).
  { rewrite Qabs_zero_iff. split; intros H; lra. }
  assert (Hpos : (0 <= Qabs (close b - open b))%Q) by apply Qabs_nonneg.
  cbn [classified set_prev derive candle_color is_green is_red body_size
       price_change row].
  destruct (Qlt_bool (open b) (close b)) eqn:G, (Qlt_bool (close b) (open b)) eqn:R.
  - exfalso. assert (open b < close b)%Q by tauto.
    assert (close b < open b)%Q by tauto. lra.
  - assert (open b < close b)%Q by tauto.
    repeat apply conj; intros; colour_case Habs Hpos.
  - assert (close b < open b)%Q by tauto.
    repeat apply conj; intros; colour_case Habs Hpos.
  - assert (Hng : ~ (open b < close b)%Q) by (rewrite <- Hg; congruence).
    assert (Hnr : ~ (close b < open b)%Q) by (rewrite <- Hr; congruence).
    assert (Heq : (close b == open b)%Q) by lra.
    repeat apply conj; intros; colour_case Habs Hpos.
Qed.

(** *** The historical signals *)

Lemma pair_output_length (df : list cbar) (i : nat) :
  (length (pair_output df i) <= 1)%nat.
Proof.
  unfold pair_output.
  destruct (df !! i), (df !! (i - 1)%nat); simpl; try lia.
  destruct (signal_for_pair _ _); simpl; lia.
Qed.

Lemma concat_length_bound {A : Type} (ls : list (list A)) :
  Forall (fun l => (length l <= 1)%nat) ls ->
  (length (concat ls) <= length ls)%nat.
Proof.
  induction 1 as [|l ls Hl _ IH]; simpl; [lia|].
  rewrite length_app. lia.
Qed.

(** X3: [generate_signals] returns at most one signal per adjacent pair of
    bars, so fewer signals than bars; for an empty frame and for a frame of
    one bar it returns no signal. *)
Theorem generate_signals_bound (data : list bar) :
  (length (generate_signals data) <= length data - 1)%nat /\
  generate_signals [] = [] /\
  (forall b : bar, generate_signals [b] = []).
Proof.
  split; [|split; [reflexivity | intros b; reflexivity]].
  rewrite generate_signals_concat.
  etransitivity; [apply concat_length_bound|].
  - apply Forall_forall. intros l Hl.
    apply list_elem_of_fmap in Hl as (i & -> & _). apply pair_output_length.
  - rewrite length_fmap, length_seq. lia.
Qed.

(** X4: two pairs that share a bar never give signals of the same type: after
    a BUY for (previous, current) the pair (current, next) gives a SELL or
    nothing, and after a SELL it gives a BUY or nothing. *)
Theorem consecutive_signals_alternate (data : list bar) (i : nat)
    (previous current next : cbar) (s s' : signal) :
  process_data data !! i = Some previous ->
  process_data data !! S i = Some current ->
  process_data data !! S (S i) = Some next ->
  signal_for_pair previous current = Some s ->
  signal_for_pair current next = Some s' ->
  sig_type s <> sig_type s'.
Proof.
  intros Hp Hc Hn Hs Hs'.
  apply process_data_elem in Hp as (a & _ & ->).
  apply process_data_elem in Hc as (b & _ & ->).
  apply process_data_elem in Hn as (c & _ & ->).
  destruct (signal_for_pair_cases (classified (match i with
                                               | O => None
                                               | S j => data !! j
                                               end) a) (classified (data !! i) b))
    as [(B1 & s1 & E1 & T1 & _) | [(_ & S1 & s1 & E1 & T1 & _) | (_ & _ & E1)]];
    rewrite E1 in Hs; [| |discriminate]; injection Hs as <-;
  destruct (signal_for_pair_cases (classified (data !! i) b)
                                  (classified (data !! S i) c))
    as [(B2 & s2 & E2 & T2 & _) | [(_ & S2 & s2 & E2 & T2 & _) | (_ & _ & E2)]];
    rewrite E2 in Hs'; try discriminate; injection Hs' as <-;
    rewrite T1, T2; try discriminate.
  - apply buy_condition_iff in B1 as (G & _ & _).
    apply buy_condition_iff in B2 as (_ & R & _).
    simpl in G, R. apply Qlt_bool_iff in G, R. lra.
  - apply sell_condition_iff in S1 as (R & _ & _).
    apply sell_condition_iff in S2 as (_ & G & _).
    simpl in G, R. apply Qlt_bool_iff in G, R. lra.
Qed.

Lemma last_concat_none {A : Type} (ls : list (list A)) :
  last (concat ls) = None <-> Forall (fun l => l = []) ls.
Proof.
  rewrite last_None. split.
  - intros H. induction ls as [|l ls IH]; [constructor|].
    simpl in H. apply app_eq_nil in H as [-> H]. constructor; auto.
  - induction 1 as [|l ls -> _ IH]; [reflexivity | exact IH].
Qed.

Lemma last_concat_some {A : Type} (ls : list (list A)) (x : A) :
  last (concat ls) = Some x ->
  exists (k : nat) (l : list A),
    ls !! k = Some l /\ last l = Some x /\
    forall (j : nat) (l' : list A), (k < j)%nat -> ls !! j = Some l' -> l' = [].
Proof.
  induction ls as [|l ls IH]; simpl; [discriminate|].
  intros H. destruct (last (concat ls)) as [y|] eqn:E.
  - rewrite last_app, E in H. injection H as ->.
    destruct (IH eq_refl) as (k & l0 & Hk & Hl & Hafter).
    exists (S k), l0. split; [exact Hk|]. split; [exact Hl|].
    intros [|j] l' Hj Hl'; [lia|]. apply (Hafter j); [lia | exact Hl'].
  - rewrite last_app, E in H.
    exists O, l. split; [reflexivity|]. split; [exact H|].
    intros [|j] l' Hj Hl'; [lia|]. simpl in Hl'.
    apply last_concat_none in E. rewrite Forall_forall in E.
    apply E. eapply list_elem_of_lookup_2. exact Hl'.
Qed.

(** X5: [get_latest_signal] returns the signal of the latest adjacent pair
    that gives one, and nothing exactly when no pair gives a signal. *)
Theorem get_latest_signal_is_last (data : list bar) :
  (get_latest_signal data = None <-> generate_signals data = []) /\
  (forall s : signal,
     get_latest_signal data = Some s ->
     exists (i : nat) (previous current : cbar),
       process_data data !! i = Some previous /\
       process_data data !! S i = Some current /\
       signal_for_pair previous current = Some s /\
       forall (j : nat) (p c : cbar),
         (i < j)%nat ->
         process_data data !! j = Some p ->
         process_data data !! S j = Some c ->
         signal_for_pair p c = None).
Proof.
  unfold get_latest_signal. split; [apply last_None|].
  intros s Hs. rewrite generate_signals_concat in Hs.
  apply last_concat_some in Hs as (k & l & Hk & Hl & Hafter).
  rewrite list_lookup_fmap in Hk.
  destruct (seq 1 (length data - 1) !! k) as [n|] eqn:Hn; [|discriminate].
  apply lookup_seq in Hn as [-> Hlt]. injection Hk as <-.
  change (1 + k)%nat with (S k) in *.
  unfold pair_output in Hl. replace (S k - 1)%nat with k in Hl by lia.
  destruct (process_data data !! S k) as [c|] eqn:Hc; [|discriminate].
  destruct (process_data data !! k) as [p|] eqn:Hp; [|discriminate].
  destruct (signal_for_pair p c) as [s0|] eqn:Hsig; [|discriminate].
  injection Hl as ->.
  exists k, p, c. do 3 (split; [assumption|]).
  intros j p' c' Hj Hp' Hc'.
  pose proof (lookup_lt_Some _ _ _ Hc') as Hlen.
  rewrite process_data_length in Hlen.
  assert (Hout : (pair_output (process_data data) <$> seq 1 (length data - 1)) !! j
                 = Some (pair_output (process_data data) (S j))).
  { rewrite list_lookup_fmap, lookup_seq_lt by lia. reflexivity. }
  apply (Hafter j) in Hout; [|exact Hj].
  rewrite (pair_output_succ _ _ _ _ Hp' Hc') in Hout.
  destruct (signal_for_pair p' c'); [discriminate | reflexivity].
Qed.

(** *** The two algorithms side by side *)

Lemma np_pct_zero_base (a b : Q) :
  (b == 0)%Q -> (0 < a)%Q ->
  np_round2 (np_times100 (np_truediv a b)) = PInf.
Proof.
  intros Hb Ha. unfold np_truediv.
  destruct (Qeq_bool b 0) eqn:E.
  - destruct (Qcompare_spec a 0) as [H | H | H]; [lra | lra | reflexivity].
  - apply Qeq_bool_neq in E. contradiction.
Qed.

Lemma py_truediv_zero (a b : Q) :
  (b == 0)%Q -> py_truediv a b = Raise ZeroDivisionError.
Proof.
  intros Hb. unfold py_truediv.
  destruct (Qeq_bool b 0) eqn:E; [reflexivity|].
  apply Qeq_bool_neq in E. contradiction.
Qed.

Lemma py_truediv_ok (a b : Q) :
  ~ (b == 0)%Q -> py_truediv a b = Ok (a / b)%Q.
Proof.
  intros Hb. unfold py_truediv.
  destruct (Qeq_bool b 0) eqn:E; [|reflexivity].
  apply Qeq_bool_iff in E. contradiction.
Qed.

(** When the two-month signal of a pair raises. *)
Lemma month_signal_for_pair_raise (previous current : cbar) (e : string) :
  month_signal_for_pair previous current = Raise e <->
  e = ZeroDivisionError /\ (open (row previous) == 0)%Q /\
  (buy_condition current previous = true \/ sell_condition current previous = true).
Proof.
  clear now rng_state np_seed np_uniform np_normal hash yf_history.
  unfold month_signal_for_pair.
  destruct (Qeq_dec (open (row previous)) 0) as [Hz | Hz].
  - rewrite !(py_truediv_zero _ _ Hz).
    destruct (buy_condition current previous).
    + split; [intros [= <-]; auto | intros (-> & _); reflexivity].
    + destruct (sell_condition current previous).
      * split; [intros [= <-]; auto | intros (-> & _); reflexivity].
      * split; [discriminate | intros (_ & _ & [H | H]); discriminate].
  - rewrite !(py_truediv_ok _ _ Hz).
    destruct (buy_condition current previous);
      [split; [discriminate | tauto]|].
    destruct (sell_condition current previous); split; try discriminate; tauto.
Qed.

(** X6: the two-month comparison raises only [ZeroDivisionError], and exactly
    when the previous bar of the compared pair opens at 0 and one of the two
    signal conditions holds; for such a pair the historical extraction
    raises nothing and gives a signal of infinite strength. *)
Theorem two_month_signal_raises (data : list bar) (e : string) :
  (generate_signal_for_last_two_months data = Raise e <->
   e = ZeroDivisionError /\
   exists previous current : cbar,
     compared_pair (process_data data) = Some (previous, current) /\
     (2 <= length data)%nat /\
     (open (row previous) == 0)%Q /\
     (buy_condition current previous = true \/
      sell_condition current previous = true)) /\
  (forall previous current : cbar,
     (open (row previous) == 0)%Q ->
     (buy_condition current previous = true \/
      sell_condition current previous = true) ->
     exists s : signal,
       signal_for_pair previous current = Some s /\ strength s = PInf).
Proof.
  split.
  - unfold generate_signal_for_last_two_months.
    destruct (Nat.ltb_spec (length data) 2) as [Hlt | Hge].
    { split; [discriminate | intros (_ & p & c & _ & Hlen & _); lia]. }
    destruct (compared_pair (process_data data)) as [[p c]|].
    + rewrite month_signal_for_pair_raise. split.
      * intros (-> & Hz & Hc). split; [reflexivity|].
        exists p, c. repeat (split; [assumption || reflexivity|]). exact Hc.
      * intros (-> & p' & c' & [= <- <-] & _ & Hz & Hc). auto.
    + split; [discriminate | intros (_ & p & c & H & _); discriminate].
  - intros p c Hz Hc. unfold signal_for_pair.
    destruct (buy_condition c p) eqn:Hb.
    + eexists. split; [reflexivity|]. simpl.
      apply buy_condition_iff in Hb as (_ & _ & Hlt).
      apply np_pct_zero_base; [exact Hz | lra].
    + destruct Hc as [Hc | Hc]; [discriminate|]. rewrite Hc.
      eexists. split; [reflexivity|]. simpl.
      apply sell_condition_iff in Hc as (_ & _ & Hlt).
      apply np_pct_zero_base; [exact Hz | lra].
Qed.

(** On a pair whose previous bar does not open at 0 the two algorithms give
    a signal together, of the same type, symbol and date. *)
Lemma pair_signals_agree (previous current : cbar) :
  ~ (open (row previous) == 0)%Q ->
  match month_signal_for_pair previous current, signal_for_pair previous current with
  | Ok (Some ms), Some s =>
      ms_type ms = sig_type s /\ ms_symbol ms = sig_symbol s /\
      ms_date ms = sig_date s
  | Ok None, None => True
  | _, _ => False
  end.
Proof.
  intros Hz. unfold month_signal_for_pair, signal_for_pair.
  rewrite !(py_truediv_ok _ _ Hz).
  destruct (buy_condition current previous).
  - simpl. repeat split.
  - destruct (sell_condition current previous); [|exact I].
    simpl. repeat split.
Qed.

Lemma compared_pair_fallback (df : list cbar) :
  (2 <= length df)%nat ->
  (forall r, r ∈ df -> in_month (get_last_two_complete_months now).1 r = false) \/
  (forall r, r ∈ df -> in_month (get_last_two_complete_months now).2 r = false) ->
  exists p c : cbar,
    df !! (length df - 2)%nat = Some p /\ df !! (length df - 1)%nat = Some c /\
    compared_pair df = Some (p, c).
Proof.
  intros Hlen Hnone. unfold compared_pair.
  destruct (get_last_two_complete_months now) as [pms cms]. simpl in Hnone.
  assert (Hfb : frame_empty (List.filter (in_month pms) df)
                || frame_empty (List.filter (in_month cms) df) = true).
  { apply orb_true_iff.
    destruct Hnone as [H | H]; apply filter_nil_iff in H; rewrite H; auto. }
  rewrite Hfb.
  destruct (Nat.ltb_spec (length df) 2); [lia|].
  destruct (df !! (length df - 2)%nat) as [p|] eqn:Hp;
    [|apply lookup_ge_None in Hp; lia].
  destruct (df !! (length df - 1)%nat) as [c|] eqn:Hc;
    [|apply lookup_ge_None in Hc; lia].
  exists p, c. repeat split.
Qed.

Lemma generate_signals_snoc_pair (data : list bar) (p c : cbar) :
  (2 <= length data)%nat ->
  process_data data !! (length data - 2)%nat = Some p ->
  process_data data !! (length data - 1)%nat = Some c ->
  exists earlier : list signal,
    generate_signals data = earlier ++ option_list (signal_for_pair p c).
Proof.
  intros Hlen Hp Hc. rewrite generate_signals_concat.
  replace (length data - 1)%nat with (S (length data - 2)) by lia.
  rewrite seq_S, fmap_app, concat_app. simpl. rewrite app_nil_r.
  eexists. f_equal.
  replace (1 + (length data - 2))%nat with (S (length data - 2)) by lia.
  apply pair_output_succ; [exact Hp|].
  replace (S (length data - 2)) with (length data - 1)%nat by lia. exact Hc.
Qed.

(** X7: when one of the two compared months has no bar (and no bar opens at
    0), the two-month comparison raises nothing and looks at the latest pair
    of bars: it gives a signal exactly when the historical extraction gives
    one for that pair, which is then the latest historical signal, of the
    same type, symbol and date. *)
Theorem fallback_is_latest_history (data : list bar) :
  (2 <= length data)%nat ->
  (forall r, r ∈ process_data data ->
     in_month (get_last_two_complete_months now).1 r = false) \/
  (forall r, r ∈ process_data data ->
     in_month (get_last_two_complete_months now).2 r = false) ->
  Forall (fun b => ~ (open b == 0)%Q) data ->
  exists (previous current : cbar) (earlier : list signal),
    process_data data !! (length data - 2)%nat = Some previous /\
    process_data data !! (length data - 1)%nat = Some current /\
    generate_signals data = earlier ++ option_list (signal_for_pair previous current) /\
    match generate_signal_for_last_two_months data with
    | Ok (Some ms) =>
        exists s : signal,
          signal_for_pair previous current = Some s /\
          get_latest_signal data = Some s /\
          ms_type ms = sig_type s /\ ms_symbol ms = sig_symbol s /\
          ms_date ms = sig_date s
    | Ok None => signal_for_pair previous current = None
    | Raise _ => False
    end.
Proof.
  intros Hlen Hnone Hnz.
  assert (Hdf : length (process_data data) = length data) by apply process_data_length.
  destruct (compared_pair_fallback (process_data data)) as (p & c & Hp & Hc & Hcp);
    [lia | exact Hnone |].
  rewrite Hdf in Hp, Hc.
  destruct (generate_signals_snoc_pair data p c Hlen Hp Hc) as (earlier & Hgen).
  exists p, c, earlier. do 3 (split; [assumption|]).
  unfold generate_signal_for_last_two_months.
  destruct (Nat.ltb_spec (length data) 2); [lia|]. rewrite Hcp.
  assert (Hz : ~ (open (row p) == 0)%Q).
  { apply process_data_elem in Hp as (a & Ha & ->). rewrite classified_row.
    rewrite Forall_forall in Hnz. apply Hnz.
    eapply list_elem_of_lookup_2. exact Ha. }
  pose proof (pair_signals_agree p c Hz) as Hag.
  destruct (month_signal_for_pair p c) as [[ms|]|e];
    destruct (signal_for_pair p c) as [s|] eqn:Hs; try contradiction.
  - exists s. split; [reflexivity|].
    split; [unfold get_latest_signal; rewrite Hgen; apply last_snoc|].
    exact Hag.
  - reflexivity.
Qed.

(** *** The fields of a signal and of an analysis *)

Lemma month_signal_for_pair_fields (previous current : cbar) (s : month_signal) :
  month_signal_for_pair previous current = Ok (Some s) ->
  ms_symbol s = symbol (row current) /\
  ms_date s = strftime_ymd (date (row current)) /\
  ms_previous_month s = get_month_name (date (row previous)) /\
  ms_current_month s = get_month_name (date (row current)) /\
  ms_current_close s = round2 (close (row current)) /\
  ms_prev_open s = round2 (open (row previous)).
Proof.
  unfold month_signal_for_pair.
  destruct (buy_condition current previous).
  - destruct (py_truediv _ _); [|discriminate]. intros [= <-]. repeat split.
  - destruct (sell_condition current previous); [|discriminate].
    destruct (py_truediv _ _); [|discriminate]. intros [= <-]. repeat split.
Qed.

Lemma in_month_name (anchor : datetime) (r : cbar) :
  in_month anchor r = true ->
  get_month_name (date (row r)) = get_month_name anchor.
Proof.
  unfold in_month. rewrite andb_true_iff, !Z.eqb_eq. intros [Hy Hm].
  unfold get_month_name. rewrite Hy, Hm. reflexivity.
Qed.

(** The fields of a successful analysis, from the fetched bars. *)
Lemma analyze_fetched_fields (sym : string) (fetched_data : option (list bar))
    (a : analysis) :
  analyze_fetched sym fetched_data = Ok (AnalysisSuccess a) ->
  exists (data : list bar) (b : bar),
    fetched_data = Some data /\ last data = Some b /\
    a_symbol a = sym /\
    current_price a = round2 (close b) /\
    generate_signal_for_last_two_months data = Ok (latest_signal a) /\
    total_signals a = length (generate_signals data) /\
    comparison_months a =
      get_month_name (get_last_two_complete_months now).1 +:+ " vs "
        +:+ get_month_name (get_last_two_complete_months now).2 /\
    last_updated a = now.
Proof.
  unfold analyze_fetched.
  destruct fetched_data as [[|b0 data]|]; try discriminate.
  destruct (generate_signal_for_last_two_months (b0 :: data)) as [latest|e] eqn:Hsig;
    [|discriminate].
  destruct (last (process_data (b0 :: data))) as [current|] eqn:Hl; [|discriminate].
  destruct (get_last_two_complete_months now) as [pm cm].
  intros [= <-]. simpl.
  apply process_data_last in Hl as (b & Hb & _ & _ & Hrow).
  exists (b0 :: data), b. rewrite Hrow.
  split; [reflexivity|]. split; [exact Hb|]. split; [reflexivity|].
  split; [reflexivity|]. split; [exact Hsig|]. repeat split.
Qed.

(** X8: when both compared months have bars and the analysis of a symbol
    carries a signal, the two month labels of the signal are the two months
    named in the analysis's [comparison_months]; the signal bears the symbol
    and the date of the first bar of the later month. *)
Theorem signal_labels_match_comparison (sym : string) (data : list bar)
    (a : analysis) (s : month_signal) :
  analyze_fetched sym (Some data) = Ok (AnalysisSuccess a) ->
  latest_signal a = Some s ->
  (exists r, r ∈ process_data data /\
             in_month (get_last_two_complete_months now).1 r = true) ->
  (exists r, r ∈ process_data data /\
             in_month (get_last_two_complete_months now).2 r = true) ->
  comparison_months a = ms_previous_month s +:+ " vs " +:+ ms_current_month s /\
  exists current : cbar,
    first_in_month (get_last_two_complete_months now).2 (process_data data) current /\
    ms_symbol s = symbol (row current) /\
    ms_date s = strftime_ymd (date (row current)).
Proof.
  intros Ha Hs (rp & Hrp & Frp) (rc & Hrc & Frc).
  apply analyze_fetched_fields in Ha
    as (data' & b & [= <-] & _ & _ & _ & Hsig & _ & Hcm & _).
  rewrite Hs in Hsig. rewrite Hcm.
  unfold generate_signal_for_last_two_months in Hsig.
  destruct (length data <? 2)%nat; [discriminate|].
  unfold compared_pair in Hsig.
  destruct (get_last_two_complete_months now) as [pms cms]. simpl in *.
  destruct (List.filter (in_month pms) (process_data data)) as [|p ps] eqn:Ep.
  { rewrite filter_nil_iff in Ep. rewrite (Ep rp Hrp) in Frp. discriminate. }
  destruct (List.filter (in_month cms) (process_data data)) as [|c cs] eqn:Ec.
  { rewrite filter_nil_iff in Ec. rewrite (Ec rc Hrc) in Frc. discriminate. }
  simpl in Hsig.
  apply month_signal_for_pair_fields in Hsig as (Hsym & Hdate & Hpm & Hcur & _).
  pose proof (filter_head _ _ _ _ Ep) as (ip & _ & Fp & _).
  pose proof (filter_head _ _ _ _ Ec) as Hfirst.
  pose proof Hfirst as (ic & _ & Fc & _).
  rewrite Hpm, Hcur, (in_month_name _ _ Fp), (in_month_name _ _ Fc).
  split; [reflexivity|]. exists c. split; [exact Hfirst|]. split; assumption.
Qed.

(** *** The synthetic bars *)

Lemma mock_rows_shape (sym : string) (dates : list datetime) (p : Q) (g : rng_state) :
  date <$> (mock_rows sym dates p g).1 = dates /\
  Forall (fun b => symbol b = sym) (mock_rows sym dates p g).1 /\
  (forall b : bar, (mock_rows sym dates p g).1 !! 0%nat = Some b -> open b = round2 p) /\
  (forall (i : nat) (a b : bar),
     (mock_rows sym dates p g).1 !! i = Some a ->
     (mock_rows sym dates p g).1 !! S i = Some b ->
     open b = close a).
Proof.
  revert p g. induction dates as [|d dates IH]; intros p g; simpl.
  - repeat split; [constructor | discriminate | discriminate].
  - destruct (np_normal 0 (8 # 100) g) as [change_pct g1].
    destruct (np_normal 0 (2 # 100) g1) as [n_high g2].
    destruct (np_normal 0 (2 # 100) g2) as [n_low g3].
    destruct (np_uniform (inject_Z 1000000) (inject_Z 50000000) g3) as [u g4].
    specialize (IH (p * (1 + change_pct))%Q g4).
    destruct (mock_rows sym dates (p * (1 + change_pct))%Q g4) as [rest g5].
    simpl in *. destruct IH as (Hd & Hs & Hfirst & Hnext).
    split; [f_equal; exact Hd|].
    split; [constructor; [reflexivity | exact Hs]|].
    split; [intros b [= <-]; reflexivity|].
    intros [|i] a b Ha Hb; simpl in Ha, Hb.
    + injection Ha as <-. simpl. apply Hfirst, Hb.
    + apply (Hnext i); assumption.
Qed.


(** *** The months of the synthetic bars *)

Lemma month_start_before_index (today : datetime) (k : Z) :
  month_index (month_start_before today k) = month_index today - k /\
  1 <= month (month_start_before today k) <= 12.
Proof.
  clear np_seed yf_history.
  unfold month_start_before, month_index. simpl.
  split; Z.div_mod_to_equations; lia.
Qed.

(** A month start is known by its month index and its time of day. *)
Lemma month_start_canonical (today dt : datetime) (k : Z) :
  1 <= month dt <= 12 -> day dt = 1 -> time dt = time today ->
  month_index dt = month_index today - k ->
  dt = month_start_before today k.
Proof.
  clear np_seed yf_history.
  intros Hm Hd Ht Hi. destruct dt as [y m d t]. simpl in *. subst d t.
  unfold month_start_before. rewrite <- Hi. unfold month_index. simpl.
  f_equal; Z.div_mod_to_equations; lia.
Qed.

Lemma month_start_add (today : datetime) (k j : Z) :
  -12 <= j <= 12 ->
  add_relativedelta_months (month_start_before today k) j
    = month_start_before today (k - j).
Proof.
  intros Hj.
  destruct (month_start_before_index today k) as [Hi Hm].
  assert (Hd : day (month_start_before today k) = 1) by reflexivity.
  assert (Ht : time (month_start_before today k) = time today) by reflexivity.
  destruct (month_start_before today k) as [y m d t]. simpl in Hd, Ht, Hm. subst d t.
  unfold month_index in Hi. simpl in Hi.
  apply month_start_canonical; unfold add_relativedelta_months, month_index; simpl;
    destruct (Z.ltb_spec 12 (m + j)); try destruct (Z.ltb_spec (m + j) 1); simpl;
    first [lia | apply first_day_not_clipped | reflexivity].
Qed.

Lemma first_of_month_start (today : datetime) :
  1 <= month today <= 12 ->
  replace_day today 1 = month_start_before today 0.
Proof.
  intros Hm. apply month_start_canonical; simpl; try reflexivity; try exact Hm.
  unfold month_index. simpl. lia.
Qed.

(** The two compared months as month starts. *)
Lemma last_two_months_starts (today : datetime) :
  1 <= month today <= 12 ->
  get_last_two_complete_months today
    = (month_start_before today 2, month_start_before today 1).
Proof.
  intros Hm. unfold get_last_two_complete_months.
  rewrite (first_of_month_start _ Hm), !month_start_add by lia. reflexivity.
Qed.

(** The day before a month start lies in the month before it. *)
Lemma last_day_before (today : datetime) (k : Z) :
  month_index (sub_one_day (month_start_before today k))
    = month_index today - (k + 1) /\
  1 <= month (sub_one_day (month_start_before today k)) <= 12 /\
  28 <= day (sub_one_day (month_start_before today k)) /\
  time (sub_one_day (month_start_before today k)) = time today.
Proof.
  destruct (month_start_before_index today k) as [Hi Hm].
  assert (Hd : day (month_start_before today k) = 1) by reflexivity.
  assert (Ht : time (month_start_before today k) = time today) by reflexivity.
  destruct (month_start_before today k) as [y m d t]. simpl in Hd, Ht, Hm. subst d t.
  unfold month_index in Hi. unfold sub_one_day, month_index. simpl in *.
  destruct (Z.ltb_spec 1 m); simpl.
  - pose proof (monthrange_days_ge y (m - 1)). repeat split; lia.
  - repeat split; lia.
Qed.

(** Datetimes of different months compare as their months do. *)
Lemma dt_compare_month_index (a b : datetime) :
  1 <= month a <= 12 -> 1 <= month b <= 12 ->
  month_index a < month_index b -> dt_compare a b = Lt.
Proof.
  clear now rng_state np_seed np_uniform np_normal hash yf_history.
  intros Ha Hb. unfold dt_compare, month_index.
  destruct (Z.compare_spec (year a) (year b)) as [Hy | Hy | Hy];
    [|reflexivity|intros; nia].
  destruct (Z.compare_spec (month a) (month b)) as [Hm | Hm | Hm];
    [intros; nia|reflexivity|intros; nia].
Qed.

Lemma dt_compare_antisym (a b : datetime) :
  dt_compare a b = CompOpp (dt_compare b a).
Proof.
  clear now rng_state np_seed np_uniform np_normal hash yf_history.
  unfold dt_compare.
  rewrite (Z.compare_antisym (year a) (year b)),
          (Z.compare_antisym (month a) (month b)),
          (Z.compare_antisym (day a) (day b)),
          (Z.compare_antisym (time a) (time b)).
  destruct (year a ?= year b), (month a ?= month b), (day a ?= day b),
           (time a ?= time b); reflexivity.
Qed.

(** A month start stands against the last day of a month as the months do. *)
Lemma month_start_leb_last_day (today : datetime) (k j : Z) :
  dt_leb (month_start_before today k) (sub_one_day (month_start_before today j))
    = (j + 1 <=? k).
Proof.
  destruct (last_day_before today j) as (Hi & Hm & Hd & Ht).
  destruct (month_start_before_index today k) as [Hik Hmk].
  unfold dt_leb.
  destruct (Z.leb_spec (j + 1) k) as [Hle | Hlt].
  - destruct (Z.eq_dec k (j + 1)) as [-> | Hne].
    + unfold dt_compare.
      assert (Hy : year (month_start_before today (j + 1))
                   = year (sub_one_day (month_start_before today j)) /\
                   month (month_start_before today (j + 1))
                   = month (sub_one_day (month_start_before today j))).
      { clear - Hi Hm Hik Hmk. unfold month_index in *.
        split; nia. }
      destruct Hy as [-> ->]. rewrite !Z.compare_refl.
      change (day (month_start_before today (j + 1))) with 1.
      destruct (Z.compare_spec 1 (day (sub_one_day (month_start_before today j))));
        first [reflexivity | lia].
    + rewrite dt_compare_month_index; [reflexivity | assumption | assumption | lia].
  - rewrite dt_compare_antisym, dt_compare_month_index;
      [reflexivity | assumption | assumption | lia].
Qed.

Lemma month_start_leb (today : datetime) (k j : Z) :
  j <= k ->
  dt_leb (month_start_before today k) (month_start_before today j) = true.
Proof.
  clear np_seed yf_history.
  intros Hjk. unfold dt_leb, dt_compare, month_start_before, month_index. simpl.
  destruct (Z.compare_spec ((year today * 12 + (month today - 1) - k) / 12)
                           ((year today * 12 + (month today - 1) - j) / 12))
    as [Hy | Hy | Hy]; [|reflexivity|exfalso; Z.div_mod_to_equations; lia].
  destruct (Z.compare_spec ((year today * 12 + (month today - 1) - k) mod 12 + 1)
                           ((year today * 12 + (month today - 1) - j) mod 12 + 1))
    as [Hm | Hm | Hm]; [|reflexivity|exfalso; Z.div_mod_to_equations; lia].
  rewrite Z.compare_refl. reflexivity.
Qed.

Lemma month_start_next (today : datetime) (k : Z) :
  next_MS (month_start_before today k) = month_start_before today (k - 1).
Proof.
  unfold next_MS. rewrite month_start_add by lia. reflexivity.
Qed.

Lemma default_window_dates (today : datetime) :
  1 <= month today <= 12 ->
  date_range_MS
    (add_relativedelta_months (get_last_two_complete_months today).1 (-6))
    (sub_one_day (add_relativedelta_months (get_last_two_complete_months today).2 1))
  = default_mock_dates today.
Proof.
  intros Hm. rewrite (last_two_months_starts _ Hm). simpl fst. simpl snd.
  rewrite !month_start_add by lia.
  change (2 - -6) with 8. change (1 - 1) with 0.
  unfold date_range_MS.
  change (rollforward_MS (month_start_before today 8))
    with (month_start_before today 8).
  destruct (last_day_before today 0) as (H0 & _).
  destruct (month_start_before_index today 8) as [H8 _].
  replace (month_index (sub_one_day (month_start_before today 0))
           - month_index (month_start_before today 8) + 1) with 8 by lia.
  change (Z.to_nat 8) with 8%nat.
  cbn [range_loop].
  repeat (rewrite month_start_leb_last_day; rewrite month_start_next).
  rewrite month_start_leb_last_day.
  reflexivity.
Qed.

Lemma in_month_start (today : datetime) (k j : Z) (r : cbar) :
  date (row r) = month_start_before today k ->
  in_month (month_start_before today j) r = (k =? j).
Proof.
  clear np_seed yf_history.
  intros Hd. unfold in_month. rewrite Hd.
  unfold month_start_before, month_index. simpl.
  destruct (Z.eqb_spec k j) as [-> | Hne].
  - rewrite !Z.eqb_refl. reflexivity.
  - destruct (Z.eqb_spec ((year today * 12 + (month today - 1) - k) / 12)
                         ((year today * 12 + (month today - 1) - j) / 12))
      as [Hy | Hy]; [|reflexivity].
    destruct (Z.eqb_spec ((year today * 12 + (month today - 1) - k) mod 12 + 1)
                         ((year today * 12 + (month today - 1) - j) mod 12 + 1))
      as [Hm | Hm]; [|reflexivity].
    exfalso. Z.div_mod_to_equations. lia.
Qed.

Lemma default_mock_dates_lookup (today : datetime) (i : nat) (d : datetime) :
  default_mock_dates today !! i = Some d ->
  (i < 8)%nat /\ d = month_start_before today (8 - Z.of_nat i).
Proof.
  intros H. pose proof (lookup_lt_Some _ _ _ H) as Hlt.
  unfold default_mock_dates in Hlt. rewrite length_fmap in Hlt. simpl in Hlt.
  split; [exact Hlt|].
  do 8 (destruct i as [|i]; [injection H as <-; reflexivity|]). lia.
Qed.

(** In a list with exactly one entry that passes a test, the filter returns
    that entry. *)
Lemma filter_unique {A : Type} (f : A -> bool) (l : list A) (i : nat) (x : A) :
  l !! i = Some x -> f x = true ->
  (forall (j : nat) (y : A), j <> i -> l !! j = Some y -> f y = false) ->
  List.filter f l = [x].
Proof.
  revert i. induction l as [|a l IH]; intros i Hi Fx Hother; [discriminate|].
  destruct i as [|i]; simpl in *.
  - injection Hi as ->. rewrite Fx. f_equal.
    apply filter_nil_iff. intros y Hy.
    apply list_elem_of_lookup in Hy as (j & Hj).
    apply (Hother (S j)); [lia | exact Hj].
  - rewrite (Hother O a) by (lia || reflexivity).
    apply (IH i); [exact Hi | exact Fx|].
    intros j y Hj Hy. apply (Hother (S j)); [lia | exact Hy].
Qed.

(** The rows of a frame whose dates are the default months. *)
Lemma default_frame_rows (today : datetime) (rows : list bar) (i : nat) (r : cbar) :
  date <$> rows = default_mock_dates today ->
  process_data rows !! i = Some r ->
  (i < 8)%nat /\ date (row r) = month_start_before today (8 - Z.of_nat i).
Proof.
  intros Hd Hr. apply process_data_elem in Hr as (b & Hb & ->).
  rewrite classified_row. apply default_mock_dates_lookup.
  rewrite <- Hd, list_lookup_fmap, Hb. reflexivity.
Qed.

(** The frame of a call without dates: its dates are those of the default
    window. *)
Lemma mock_data_continuous_run (sym : string) (w : world) :
  exists (rows : list bar) (w' : world),
    _generate_mock_data sym None None w = (Ok rows, w') /\
    date <$> rows =
      date_range_MS
        (add_relativedelta_months (get_last_two_complete_months now).1 (-6))
        (sub_one_day (add_relativedelta_months (get_last_two_complete_months now).2 1)).
Proof.
  rewrite generate_mock_data_run. eexists _, _. split; [reflexivity|].
  unfold mock_seeded. destruct (get_last_two_complete_months now) as [pm lm].
  destruct (np_uniform _ _ _) as [base g]. simpl.
  apply mock_rows_shape.
Qed.

(** X10: for every instant of the clock, the synthetic generator called
    without dates returns eight bars, one for each of the eight months that
    end with the later compared month, in the order of their dates; the two
    compared months are its last two bars, so the two-month comparison of
    synthetic bars never falls back and compares exactly those two. *)
Theorem mock_data_covers_compared_months (sym : string) (w : world) :
  valid_datetime now ->
  exists (rows : list bar) (w' : world),
    _generate_mock_data sym None None w = (Ok rows, w') /\
    date <$> rows = default_mock_dates now /\
    length rows = 8%nat /\
    chronological rows /\
    exists previous current : cbar,
      process_data rows !! 6%nat = Some previous /\
      process_data rows !! 7%nat = Some current /\
      in_month (get_last_two_complete_months now).1 previous = true /\
      in_month (get_last_two_complete_months now).2 current = true /\
      compared_pair (process_data rows) = Some (previous, current) /\
      generate_signal_for_last_two_months rows
        = month_signal_for_pair previous current.
Proof.
  intros (Hm & _ & _).
  destruct (mock_data_continuous_run sym w) as (rows & w' & Hrun & Hd).
  rewrite default_window_dates in Hd by exact Hm.
  exists rows, w'. split; [exact Hrun|]. split; [exact Hd|].
  assert (Hlen : length rows = 8%nat).
  { rewrite <- (length_fmap date), Hd. reflexivity. }
  split; [exact Hlen|]. split.
  { intros i j a b Hij Ha Hb.
    assert (Hda : default_mock_dates now !! i = Some (date a))
      by (rewrite <- Hd, list_lookup_fmap, Ha; reflexivity).
    assert (Hdb : default_mock_dates now !! j = Some (date b))
      by (rewrite <- Hd, list_lookup_fmap, Hb; reflexivity).
    apply default_mock_dates_lookup in Hda as [_ ->].
    apply default_mock_dates_lookup in Hdb as [_ ->].
    apply month_start_leb. lia. }
  destruct (process_data rows !! 6%nat) as [p|] eqn:Hp.
  2:{ apply lookup_ge_None in Hp. rewrite process_data_length in Hp. lia. }
  destruct (process_data rows !! 7%nat) as [c|] eqn:Hc.
  2:{ apply lookup_ge_None in Hc. rewrite process_data_length in Hc. lia. }
  exists p, c. do 2 (split; [reflexivity|]).
  rewrite (last_two_months_starts _ Hm). simpl fst. simpl snd.
  destruct (default_frame_rows _ _ _ _ Hd Hp) as [_ Hdp].
  destruct (default_frame_rows _ _ _ _ Hd Hc) as [_ Hdc].
  assert (Fp : in_month (month_start_before now 2) p = true)
    by (rewrite (in_month_start _ _ _ _ Hdp); reflexivity).
  assert (Fc : in_month (month_start_before now 1) c = true)
    by (rewrite (in_month_start _ _ _ _ Hdc); reflexivity).
  do 2 (split; [assumption|]).
  assert (Ep : List.filter (in_month (month_start_before now 2)) (process_data rows)
               = [p]).
  { apply (filter_unique _ _ 6%nat); [exact Hp | exact Fp|].
    intros j y Hj Hy. destruct (default_frame_rows _ _ _ _ Hd Hy) as [Hlt Hdy].
    rewrite (in_month_start _ _ _ _ Hdy). apply Z.eqb_neq. lia. }
  assert (Ec : List.filter (in_month (month_start_before now 1)) (process_data rows)
               = [c]).
  { apply (filter_unique _ _ 7%nat); [exact Hc | exact Fc|].
    intros j y Hj Hy. destruct (default_frame_rows _ _ _ _ Hd Hy) as [Hlt Hdy].
    rewrite (in_month_start _ _ _ _ Hdy). apply Z.eqb_neq. lia. }
  assert (Hcp : compared_pair (process_data rows) = Some (p, c)).
  { unfold compared_pair. rewrite (last_two_months_starts _ Hm), Ep, Ec. reflexivity. }
  split; [exact Hcp|].
  unfold generate_signal_for_last_two_months.
  destruct (Nat.ltb_spec (length rows) 2); [lia|]. rewrite Hcp. reflexivity.
Qed.

(** *** Fetching and the cache *)

Lemma mock_seeded_symbol (sym : string) (start_date end_date : option datetime) :
  Forall (fun b => symbol b = sym) (mock_seeded sym start_date end_date).1.
Proof.
  unfold mock_seeded. destruct (get_last_two_complete_months now) as [pm lm].
  destruct (np_uniform _ _ _) as [base g]. apply mock_rows_shape.
Qed.

(** The rows made of the provider's answer. *)
Lemma rows_of_quotes (sym : string) (quotes : list quote) :
  Forall2 (fun (q : quote) (b : bar) =>
             date b = q_date q /\ open b = q_open q /\
             high b = q_high q /\ low b = q_low q /\
             close b = q_close q /\ volume b = q_volume q /\
             symbol b = sym)
          quotes (bar_of_quote sym <$> quotes).
Proof.
  induction quotes as [|q quotes IH]; constructor; [repeat split | exact IH].
Qed.

(** X11: [fetch_candlestick_data] never raises.  With the provider, an
    exception of the provider and an empty answer both give no frame and
    leave the analyzer and the generator as they were; a non-empty answer
    comes back row for row, each row bearing the symbol, and is stored in the
    cache under it.  In mock mode the result is the frame of the synthetic
    generator, in the world the generator leaves.  No other cache entry
    changes, and the mode never changes. *)
Theorem fetch_never_raises (sym : string) (start_date end_date : option datetime)
    (interval : string) (w : world) :
  exists (fd : option (list bar)) (w' : world),
    fetch_candlestick_data sym start_date end_date interval w = (Ok fd, w') /\
    use_mock_data w' = use_mock_data w /\
    (fd = None -> w' = w /\ use_mock_data w = false) /\
    (forall rows : list bar, fd = Some rows ->
       stocks_data w' = <[sym := rows]> (stocks_data w) /\
       Forall (fun b => symbol b = sym) rows /\
       (use_mock_data w = false -> rows <> [] /\ np_random w' = np_random w)) /\
    (use_mock_data w = false ->
     match yf_history (sym +:+ ".NS")
             (default (sub_days (365 * 2) now) start_date)
             (default now end_date) interval with
     | Ok [] => fd = None
     | Ok quotes =>
         exists rows : list bar,
           fd = Some rows /\
           Forall2 (fun (q : quote) (b : bar) =>
                      date b = q_date q /\ open b = q_open q /\
                      high b = q_high q /\ low b = q_low q /\
                      close b = q_close q /\ volume b = q_volume q /\
                      symbol b = sym)
                   quotes rows
     | Raise _ => fd = None
     end) /\
    (use_mock_data w = true ->
     exists rows : list bar,
       fd = Some rows /\
       _generate_mock_data sym start_date end_date w = (Ok rows, w')).
Proof.
  unfold fetch_candlestick_data.
  destruct (use_mock_data w) eqn:Hm.
  - unfold bind, ret. rewrite generate_mock_data_run.
    eexists (Some _), _. split; [reflexivity|]. simpl.
    split; [exact Hm|]. split; [discriminate|]. split; [|split; [discriminate|]].
    + intros rows [= <-]. split; [reflexivity|].
      split; [apply mock_seeded_symbol | discriminate].
    + intros _. eexists. split; reflexivity.
  - unfold try_except, fetch_from_provider, bind, lift.
    destruct (yf_history _ _ _ _) as [[|q qs]|e] eqn:Hy; simpl.
    + exists None, w. repeat split; try discriminate; auto.
    + eexists (Some _), _. split; [reflexivity|]. simpl.
      split; [exact Hm|]. split; [discriminate|].
      split; [|split; [|discriminate]].
      * intros rows [= <-]. split; [reflexivity|]. split.
        -- apply Forall_forall. intros b Hb.
           apply (list_elem_of_fmap (bar_of_quote sym) (q :: qs)) in Hb
             as (q' & -> & _). reflexivity.
        -- intros _. split; [discriminate | reflexivity].
      * intros _. eexists. split; [reflexivity|].
        exact (rows_of_quotes sym (q :: qs)).
    + exists None, w. repeat split; try discriminate; auto.
Qed.

Lemma fetch_cache (sym : string) (w : world) :
  stocks_data (fetch_candlestick_data sym None None "1mo" w).2
    = cache_fetch (use_mock_data w) (stocks_data w) sym /\
  use_mock_data (fetch_candlestick_data sym None None "1mo" w).2 = use_mock_data w.
Proof.
  unfold fetch_candlestick_data, cache_fetch, fetched.
  destruct (use_mock_data w) eqn:Hm.
  - unfold bind, ret. rewrite generate_mock_data_run. simpl. split; [reflexivity | exact Hm].
  - unfold try_except, fetch_from_provider, bind, lift. simpl.
    destruct (yf_history _ _ _ _) as [[|q qs]|e]; simpl; split;
      first [reflexivity | exact Hm].
Qed.

Lemma analyze_stock_cache (sym : string) (w : world) :
  stocks_data (analyze_stock sym w).2
    = cache_fetch (use_mock_data w) (stocks_data w) sym /\
  use_mock_data (analyze_stock sym w).2 = use_mock_data w.
Proof.
  destruct (fetch_cache sym w) as [Hc Hm].
  unfold analyze_stock, bind, lift.
  destruct (fetch_candlestick_data sym None None "1mo" w) as [[fd|e] w'];
    simpl in *; split; assumption.
Qed.

Lemma scan_loop_cache (stocks : list string) (r : results) (w : world) :
  stocks_data (scan_loop stocks r w).2
    = fold_left (cache_fetch (use_mock_data w)) stocks (stocks_data w) /\
  use_mock_data (scan_loop stocks r w).2 = use_mock_data w.
Proof.
  revert r w. induction stocks as [|sym stocks IH]; intros r w; simpl.
  - split; reflexivity.
  - destruct (analyze_stock_cache sym w) as [Hc Hm].
    unfold bind, scan_symbol, try_except, scan_try, bind.
    destruct (analyze_stock sym w) as [[a|e] w1]; simpl in *.
    + destruct (IH (record_analysis r sym a) w1) as [IHc IHm].
      rewrite IHc, IHm, Hc, Hm. split; reflexivity.
    + destruct (IH (append_error r {| err_symbol := sym; err_message := e |}) w1)
        as [IHc IHm].
      rewrite IHc, IHm, Hc, Hm. split; reflexivity.
Qed.

Lemma cache_fold_lookup (mock : bool) (stocks : list string)
    (m : gmap string (list bar)) (sym : string) :
  fold_left (cache_fetch mock) stocks m !! sym =
    if bool_decide (sym ∈ stocks) then
      match fetched mock sym with
      | Some rows => Some rows
      | None => m !! sym
      end
    else m !! sym.
Proof.
  revert m. induction stocks as [|s stocks IH]; intros m; cbn [fold_left].
  - case_bool_decide as H; [inversion H | reflexivity].
  - rewrite IH. unfold cache_fetch.
    destruct (decide (sym = s)) as [-> | Hne].
    + rewrite (bool_decide_eq_true_2 (s ∈ s :: stocks)) by left.
      destruct (fetched mock s) as [rows|] eqn:Hf.
      * case_bool_decide; rewrite ?lookup_insert_eq; reflexivity.
      * case_bool_decide; reflexivity.
    + assert (Hiff : sym ∈ s :: stocks <-> sym ∈ stocks).
      { rewrite elem_of_cons. tauto. }
      rewrite (bool_decide_ext _ _ Hiff).
      destruct (fetched mock s) as [rows|];
        [rewrite lookup_insert_ne by congruence|]; reflexivity.
Qed.

(** X12: after a scan the analyzer's cache holds, for every scanned symbol
    whose fetch gave a frame, that frame; the entry of a scanned symbol whose
    fetch gave nothing and the entries of all other symbols are what they
    were before the scan; the mode is unchanged. *)
Theorem scan_cache_effect (stock_list : option (list string)) (w : world) :
  let w' := (scan_all_stocks stock_list w).2 in
  use_mock_data w' = use_mock_data w /\
  forall sym : string,
    stocks_data w' !! sym =
      if bool_decide (sym ∈ stocks_or_default stock_list) then
        match (fetch_candlestick_data sym None None "1mo" w).1 with
        | Ok (Some rows) => Some rows
        | _ => stocks_data w !! sym
        end
      else stocks_data w !! sym.
Proof.
  unfold scan_all_stocks, bind, ret.
  set (stocks := stocks_or_default stock_list).
  set (r0 := mk_results now (length stocks) [] [] [] [] [] []).
  destruct (scan_loop_cache stocks r0 w) as [Hc Hm].
  destruct (scan_loop_run stocks r0 w) as (w1 & Hrun & _).
  rewrite Hrun in *. simpl in *.
  split; [exact Hm|]. intros sym.
  rewrite Hc, cache_fold_lookup, fetch_outcome. reflexivity.
Qed.

(** *** The chart data *)






(** *** The counts of a report *)

Lemma filter_exclusive_length {A : Type} (f g : A -> bool) (l : list A) :
  (forall x, f x && g x = false) ->
  (length (List.filter f l) + length (List.filter g l))%nat
    = length (List.filter (fun x => f x || g x) l).
Proof.
  intros H. induction l as [|x l IH]; [reflexivity|].
  cbn [List.filter]. specialize (H x).
  destruct (f x), (g x); try discriminate; simpl; lia.
Qed.

Lemma has_signal_some (a : analysis) :
  has_signal BUY a || has_signal SELL a = signalled a.
Proof.
  unfold has_signal, signalled.
  destruct (latest_signal a) as [s|]; [destruct (ms_type s)|]; reflexivity.
Qed.

Lemma has_signal_exclusive (a : analysis) :
  has_signal BUY a && has_signal SELL a = false.
Proof.
  unfold has_signal.
  destruct (latest_signal a) as [s|]; [destruct (ms_type s)|]; reflexivity.
Qed.

(** X14: the counts of a report fit together.  The report carries the time
    of the scan; the bullish and the bearish count add up to the number of
    analyses; the buy and the sell count add up to the number of analyses
    that have a signal, so to no more than the number of analyses; an
    analysis of the buy list or of the sell list is one of the analyses of
    the report, and none is in both lists; and the number of analyses and
    the number of errors add up to the number of symbols the report gives as
    its total. *)
Theorem summary_counts_consistent (stock_list : option (list string)) (w : world) :
  exists (rep : report) (w' : world),
    scan_all_stocks stock_list w = (Ok rep, w') /\
    scan_time rep = now /\
    (bullish_count (summary_of rep) + bearish_count (summary_of rep))%nat
      = total_scanned (summary_of rep) /\
    (buy_signals_count (summary_of rep) + sell_signals_count (summary_of rep))%nat
      = length (List.filter signalled (all_stocks rep)) /\
    (buy_signals_count (summary_of rep) + sell_signals_count (summary_of rep)
       <= total_scanned (summary_of rep))%nat /\
    (forall a : analysis,
       a ∈ buy_signals rep -> a ∈ all_stocks rep /\ a ∉ sell_signals rep) /\
    (forall a : analysis,
       a ∈ sell_signals rep -> a ∈ all_stocks rep /\ a ∉ buy_signals rep) /\
    (total_scanned (summary_of rep) + error_count (summary_of rep))%nat
      = total_stocks rep.
Proof.
  destruct (scan_all_stocks_run stock_list w)
    as (rep & w' & Hrun & Htot & Herr & Hall & Hbull & Hbear & Hbuy & Hsell
          & Hts & Hbc & Hsc & Hblc & Hbrc & Hec).
  destruct (contributions_split (use_mock_data w) (stocks_or_default stock_list))
    as (Ce & Cs & _).
  exists rep, w'. split; [exact Hrun|].
  rewrite <- Hall in Hbull, Hbear, Hbuy, Hsell.
  assert (Hsum : (buy_signals_count (summary_of rep)
                  + sell_signals_count (summary_of rep))%nat
                 = length (List.filter signalled (all_stocks rep))).
  { rewrite Hbc, Hsc, Hbuy, Hsell, !sort_desc_perm.
    rewrite (filter_exclusive_length _ _ _ has_signal_exclusive).
    f_equal. apply filter_ext. intros a. apply has_signal_some. }
  split.
  { unfold scan_all_stocks, bind, ret in Hrun.
    destruct (scan_loop_run (stocks_or_default stock_list)
                (mk_results now (length (stocks_or_default stock_list))
                   [] [] [] [] [] []) w) as (w1 & Hl & _).
    rewrite Hl in Hrun. injection Hrun as <- _. cbn [lists scan_time].
    apply scan_fold_fields. }
  split.
  { rewrite Hblc, Hbrc, Hts, Hbull, Hbear. apply filter_length_complement. }
  split; [exact Hsum|].
  split.
  { rewrite Hsum, Hts. apply List.filter_length_le. }
  split.
  { intros a Ha. rewrite Hbuy, sort_desc_perm in Ha.
    apply elem_of_filter_bool in Ha as [Hin Hb]. split; [exact Hin|].
    rewrite Hsell, sort_desc_perm, elem_of_filter_bool. intros [_ Hs].
    pose proof (has_signal_exclusive a) as He. rewrite Hb, Hs in He. discriminate. }
  split.
  { intros a Ha. rewrite Hsell, sort_desc_perm in Ha.
    apply elem_of_filter_bool in Ha as [Hin Hs]. split; [exact Hin|].
    rewrite Hbuy, sort_desc_perm, elem_of_filter_bool. intros [_ Hb].
    pose proof (has_signal_exclusive a) as He. rewrite Hb, Hs in He. discriminate. }
  rewrite Hts, Hec, Htot, Herr, Hall, Ce, Cs.
  rewrite Nat.add_comm, contributions_count, length_fmap. reflexivity.
Qed.

(** *** The cases of an analysis *)

Lemma generate_signals_length (data : list bar) :
  (length (generate_signals data) <= length data - 1)%nat.
Proof.
  rewrite generate_signals_concat.
  etransitivity; [apply concat_length_bound|].
  - apply Forall_forall. intros l Hl.
    apply list_elem_of_fmap in Hl as (i & -> & _). apply pair_output_length.
  - rewrite length_fmap, length_seq. lia.
Qed.

(** The rows a fetch returns bear the symbol asked for. *)
Lemma fetched_symbol (mock : bool) (sym : string) (data : list bar) :
  fetched mock sym = Some data -> Forall (fun b => symbol b = sym) data.
Proof.
  unfold fetched. destruct mock.
  - intros [= <-]. apply mock_seeded_symbol.
  - destruct (yf_history _ _ _ _) as [[|q qs]|e]; try discriminate.
    intros [= <-]. apply Forall_forall. intros b Hb.
    apply (list_elem_of_fmap (bar_of_quote sym) (q :: qs)) in Hb as (q' & -> & _).
    reflexivity.
Qed.

Lemma two_month_signal_symbol (sym : string) (data : list bar) (s : month_signal) :
  Forall (fun b => symbol b = sym) data ->
  generate_signal_for_last_two_months data = Ok (Some s) ->
  ms_symbol s = sym.
Proof.
  intros Hsym. rewrite Forall_forall in Hsym.
  unfold generate_signal_for_last_two_months.
  destruct (length data <? 2)%nat; [discriminate|].
  destruct (compared_pair (process_data data)) as [[p c]|] eqn:Hpair; [|discriminate].
  intros Hs. apply month_signal_for_pair_fields in Hs as (-> & _).
  apply compared_pair_in in Hpair as [_ Hc].
  apply process_data_in in Hc as (prev & b & Hb & ->).
  rewrite classified_row. apply Hsym, Hb.
Qed.

Lemma np_pct_not_finite (a b q : Q) :
  (b == 0)%Q -> np_round2 (np_times100 (np_truediv a b)) <> Fin q.
Proof.
  intros Hz. unfold np_truediv.
  apply Qeq_bool_iff in Hz. rewrite Hz.
  destruct (a ?= 0)%Q; discriminate.
Qed.

(** X15: the three ways [analyze_stock] ends.  An error dictionary names the
    symbol and says 'Failed to fetch data', and comes exactly from a fetch
    that gave no frame or an empty one.  A successful analysis names the
    symbol, carries the rounded close of the latest fetched bar and its
    percentage move, which is an infinity or a NaN, not an error, when that
    bar opened at 0; its count of signals is that of the historical signals
    and is smaller than the number of bars; it is stamped with the time of
    the call; and its latest signal, if any, bears the symbol.  An exception
    is always [ZeroDivisionError], raised by the two-month comparison. *)
Theorem analyze_stock_cases (sym : string) (w : world) :
  match (analyze_stock sym w).1 with
  | Ok (AnalysisError s message) =>
      s = sym /\ message = "Failed to fetch data" /\
      unavailable (fetch_candlestick_data sym None None "1mo" w).1 = true
  | Ok (AnalysisSuccess a) =>
      exists (data : list bar) (b : bar),
        (fetch_candlestick_data sym None None "1mo" w).1 = Ok (Some data) /\
        last data = Some b /\
        a_symbol a = sym /\
        current_price a = round2 (close b) /\
        a_price_change_pct a =
          np_round2 (np_times100 (np_truediv (close b - open b) (open b))) /\
        ((open b == 0)%Q -> forall q : Q, a_price_change_pct a <> Fin q) /\
        total_signals a = length (generate_signals data) /\
        (total_signals a < length data)%nat /\
        last_updated a = now /\
        (forall s : month_signal, latest_signal a = Some s -> ms_symbol s = sym)
  | Raise e =>
      e = ZeroDivisionError /\
      exists data : list bar,
        (fetch_candlestick_data sym None None "1mo" w).1 = Ok (Some data) /\
        generate_signal_for_last_two_months data = Raise e
  end.
Proof.
  rewrite analyze_stock_outcome, fetch_outcome. unfold outcome.
  pose proof (fetched_symbol (use_mock_data w) sym) as Hsym.
  destruct (fetched (use_mock_data w) sym) as [[|b0 data]|];
    try (repeat split; fail).
  specialize (Hsym _ eq_refl).
  pose proof (generate_signals_length (b0 :: data)) as Hlen.
  unfold analyze_fetched.
  destruct (generate_signal_for_last_two_months (b0 :: data)) as [latest|e] eqn:Hsig.
  - destruct (last (process_data (b0 :: data))) as [current|] eqn:Hl.
    + destruct (get_last_two_complete_months now) as [pm cm].
      rewrite last_lookup, process_data_length in Hl.
      apply process_data_elem in Hl as (b & Hb & ->).
      rewrite <- last_lookup in Hb.
      exists (b0 :: data), b. cbn [a_symbol current_price a_price_change_pct
        total_signals last_updated latest_signal].
      rewrite classified_row.
      split; [reflexivity|]. split; [exact Hb|]. split; [reflexivity|].
      split; [reflexivity|]. split; [reflexivity|].
      split; [intros Hz q; apply np_pct_not_finite, Hz|].
      split; [reflexivity|].
      split; [eapply Nat.le_lt_trans; [exact Hlen | simpl; lia]|].
      split; [reflexivity|].
      intros s ->. eapply two_month_signal_symbol; eassumption.
    + rewrite last_lookup in Hl. apply lookup_ge_None in Hl.
      rewrite process_data_length in Hl. cbn [length] in Hl. lia.
  - split; [|exists (b0 :: data); split; [reflexivity | exact Hsig]].
    unfold generate_signal_for_last_two_months in Hsig.
    destruct (length (b0 :: data) <? 2)%nat; [discriminate|].
    destruct (compared_pair (process_data (b0 :: data))) as [[p c]|]; [|discriminate].
    apply month_signal_for_pair_raise in Hsig as [-> _]. reflexivity.
Qed.

(** *** The synthetic bars are well formed *)

Lemma round_half_even_mono (x y : Q) :
  (x <= y)%Q -> round_half_even x <= round_half_even y.
Proof.
  intros Hxy. unfold round_half_even.
  pose proof (Qfloor_resp_le _ _ Hxy) as Hf.
  pose proof (Qfloor_le x) as Hx1. pose proof (Qlt_floor x) as Hx2.
  pose proof (Qfloor_le y) as Hy1. pose proof (Qlt_floor y) as Hy2.
  rewrite inject_Z_plus in Hx2, Hy2.
  destruct (Z.eq_dec (Qfloor x) (Qfloor y)) as [E | E].
  - rewrite <- E in *.
    destruct (Qcompare_spec (x - inject_Z (Qfloor x)) (1 # 2)),
             (Qcompare_spec (y - inject_Z (Qfloor x)) (1 # 2));
      destruct (Z.even (Qfloor x)); try lia; exfalso; lra.
  - destruct (x - inject_Z (Qfloor x) ?= 1 # 2)%Q,
             (y - inject_Z (Qfloor y) ?= 1 # 2)%Q;
      try destruct (Z.even (Qfloor x)); try destruct (Z.even (Qfloor y)); lia.
Qed.

Lemma round2_mono (x y : Q) : (x <= y)%Q -> (round2 x <= round2 y)%Q.
Proof.
  intros Hxy. unfold round2.
  assert (H : round_half_even (x * 100) <= round_half_even (y * 100)).
  { apply round_half_even_mono. lra. }
  rewrite Zle_Qle in H. apply Qmult_le_compat_r; [exact H | discriminate].
Qed.

Lemma mock_rows_well_formed (sym : string) (dates : list datetime) (p : Q)
    (g : rng_state) :
  draws_bounded -> (0 <= p)%Q ->
  Forall well_formed (mock_rows sym dates p g).1.
Proof.
  intros (_ & Hchange & Hwick). revert p g.
  induction dates as [|d dates IH]; intros p g Hp; simpl; [constructor|].
  pose proof (Hchange g) as Hc.
  destruct (np_normal 0 (8 # 100) g) as [change_pct g1].
  pose proof (Hwick g1) as Hh.
  destruct (np_normal 0 (2 # 100) g1) as [n_high g2].
  pose proof (Hwick g2) as Hl.
  destruct (np_normal 0 (2 # 100) g2) as [n_low g3].
  destruct (np_uniform (inject_Z 1000000) (inject_Z 50000000) g3) as [u g4].
  cbn [fst] in Hc, Hh, Hl.
  assert (Hclose : (0 <= p * (1 + change_pct))%Q).
  { apply Qmult_le_0_compat; lra. }
  specialize (IH (p * (1 + change_pct))%Q g4 Hclose).
  destruct (mock_rows sym dates (p * (1 + change_pct))%Q g4) as [rest g5].
  cbn [fst] in *. constructor; [|exact IH].
  set (c := (p * (1 + change_pct))%Q) in *.
  pose proof (Qabs_nonneg n_high) as Hh0.
  pose proof (Qabs_nonneg n_low) as Hl0.
  pose proof (Q.le_max_l p c) as M1. pose proof (Q.le_max_r p c) as M2.
  pose proof (Q.le_min_l p c) as m1. pose proof (Q.le_min_r p c) as m2.
  assert (m0 : (0 <= Qmin p c)%Q) by (apply Q.min_glb; assumption).
  assert (Hhi : (Qmax p c <= Qmax p c * (1 + Qabs n_high))%Q).
  { assert (0 <= Qmax p c * Qabs n_high)%Q by (apply Qmult_le_0_compat; lra).
    lra. }
  assert (Hlo : (Qmin p c * (1 - Qabs n_low) <= Qmin p c)%Q).
  { assert (0 <= Qmin p c * Qabs n_low)%Q by (apply Qmult_le_0_compat; lra).
    lra. }
  assert (Hlo0 : (0 <= Qmin p c * (1 - Qabs n_low))%Q).
  { apply Qmult_le_0_compat; lra. }
  unfold well_formed. cbn [low open close high].
  split; [apply round2_nonneg, Hlo0|].
  repeat split; apply round2_mono; lra.
Qed.

Lemma mock_seeded_well_formed (sym : string)
    (start_date end_date : option datetime) :
  draws_bounded -> Forall well_formed (mock_seeded sym start_date end_date).1.
Proof.
  intros Hb. unfold mock_seeded.
  destruct (get_last_two_complete_months now) as [pm lm].
  pose proof (proj1 Hb (np_seed (hash sym mod 2 ^ 32))) as Hbase.
  destruct (np_uniform _ _ _) as [base g]. cbn [fst] in Hbase.
  apply mock_rows_well_formed; assumption.
Qed.

(** X16: with draws of the generator in their range, every synthetic bar is
    well formed: no price is negative, and the low and the high enclose the
    open and the close. *)
Theorem mock_candles_well_formed (sym : string)
    (start_date end_date : option datetime) (w : world) :
  draws_bounded ->
  exists (rows : list bar) (w' : world),
    _generate_mock_data sym start_date end_date w = (Ok rows, w') /\
    Forall well_formed rows.
Proof.
  intros Hb. rewrite generate_mock_data_run. eexists _, _.
  split; [reflexivity|]. apply mock_seeded_well_formed, Hb.
Qed.

Lemma well_formed_nonneg (b : bar) : well_formed b -> nonneg_prices b.
Proof. unfold well_formed, nonneg_prices. intros (? & ? & ? & ? & ?). lra. Qed.

(** In mock mode, on a calendar instant and with draws in their range, the
    analysis of a symbol succeeds. *)
Lemma mock_outcome_success (sym : string) :
  valid_datetime now -> draws_bounded ->
  exists a : analysis,
    outcome true sym = Ok (AnalysisSuccess a) /\ a_symbol a = sym.
Proof.
  intros Hnow Hb. unfold outcome, fetched.
  destruct (analyze_fetched_valid sym (mock_seeded sym None None).1) as (a & Ha).
  - intros Hnil.
    destruct (mock_data_continuous_run sym (mk_world true ∅ (np_seed 0)))
      as (rows & w' & Hrun & Hd).
    rewrite generate_mock_data_run in Hrun. injection Hrun as <- _.
    rewrite Hnil, default_window_dates in Hd by apply Hnow. discriminate.
  - eapply Forall_impl; [apply mock_seeded_well_formed, Hb|].
    apply well_formed_nonneg.
  - exists a. split; [exact Ha|].
    apply analyze_fetched_success in Ha as (_ & _ & _ & _ & Hs & _). exact Hs.
Qed.

(** X17: in mock mode, on a calendar instant and with draws of the generator
    in their range, the scan analyses every symbol: the report has no error,
    and its analyses are those of the scanned symbols, one each and in the
    order of the list. *)
Theorem mock_scan_complete (stock_list : option (list string)) (w : world) :
  valid_datetime now -> draws_bounded -> use_mock_data w = true ->
  exists (rep : report) (w' : world),
    scan_all_stocks stock_list w = (Ok rep, w') /\
    errors rep = [] /\
    a_symbol <$> all_stocks rep = stocks_or_default stock_list /\
    error_count (summary_of rep) = 0%nat /\
    total_scanned (summary_of rep) = total_stocks rep.
Proof.
  intros Hnow Hb Hm.
  destruct (scan_all_stocks_run stock_list w)
    as (rep & w' & Hrun & Htot & Herr & Hall & _ & _ & _ & _ & Hts & _ & _ & _ & _ & Hec).
  rewrite Hm in Herr, Hall.
  exists rep, w'. split; [exact Hrun|].
  assert (H : errors rep = [] /\ a_symbol <$> all_stocks rep = stocks_or_default stock_list).
  { rewrite Herr, Hall. clear Herr Hall Hrun Htot Hts Hec.
    induction (stocks_or_default stock_list) as [|sym stocks [IH1 IH2]];
      [split; reflexivity|].
    destruct (mock_outcome_success sym Hnow Hb) as (a & Ha & Hs).
    rewrite !omap_cons, Ha, IH1.
    cbn [success_of error_entry_of option_list app].
    split; [reflexivity|].
    change (a_symbol a
              :: (a_symbol <$> omap (fun sym => success_of (outcome true sym)) stocks)
            = sym :: stocks).
    rewrite IH2, Hs. reflexivity. }
  destruct H as [He Ha]. split; [exact He|]. split; [exact Ha|].
  split; [rewrite Hec, He; reflexivity|].
  rewrite Hts, Htot, <- Ha, length_fmap. reflexivity.
Qed.

(** *** Ties in the signal lists *)

Lemma insert_desc_filter {A : Type} (key : A -> Q) (k : Q) (x : A) (l : list A) :
  List.filter (fun y => Qeq_bool (key y) k) (insert_desc key x l)
    = List.filter (fun y => Qeq_bool (key y) k) (x :: l).
Proof.
  induction l as [|y l IH]; [reflexivity|].
  cbn [insert_desc]. destruct (Qle_bool (key y) (key x)) eqn:E; [reflexivity|].
  cbn [List.filter] in *. rewrite IH.
  destruct (Qeq_bool (key y) k) eqn:Ey, (Qeq_bool (key x) k) eqn:Ex;
    try reflexivity.
  apply Qeq_bool_iff in Ey, Ex.
  assert (H : Qle_bool (key y) (key x) = true) by (apply Qle_bool_iff; lra).
  congruence.
Qed.

Lemma sort_desc_filter {A : Type} (key : A -> Q) (k : Q) (l : list A) :
  List.filter (fun y => Qeq_bool (key y) k) (sort_desc key l)
    = List.filter (fun y => Qeq_bool (key y) k) l.
Proof.
  induction l as [|x l IH]; [reflexivity|].
  cbn [sort_desc]. rewrite insert_desc_filter. cbn [List.filter].
  rewrite IH. reflexivity.
Qed.

(** X18: the sort of the two signal lists is stable.  In the report of a
    scan, the analyses of the buy list whose signals have one and the same
    strength stand in the order in which the scan met them, and so do those
    of the sell list. *)
Theorem equal_strength_keeps_scan_order (stock_list : option (list string))
    (w : world) :
  exists (rep : report) (w' : world),
    scan_all_stocks stock_list w = (Ok rep, w') /\
    forall k : Q,
      List.filter (fun a => Qeq_bool (strength_key a) k) (buy_signals rep)
        = List.filter (fun a => Qeq_bool (strength_key a) k)
            (List.filter (has_signal BUY) (all_stocks rep)) /\
      List.filter (fun a => Qeq_bool (strength_key a) k) (sell_signals rep)
        = List.filter (fun a => Qeq_bool (strength_key a) k)
            (List.filter (has_signal SELL) (all_stocks rep)).
Proof.
  destruct (scan_all_stocks_run stock_list w)
    as (rep & w' & Hrun & _ & _ & Hall & _ & _ & Hbuy & Hsell & _).
  exists rep, w'. split; [exact Hrun|].
  intros k. rewrite Hbuy, Hsell, Hall, !sort_desc_filter. split; reflexivity.
Qed.

End Engine.

(** ** The theorems at concrete inputs *)

(** The specification's example of a BUY: strength 10. *)
Example buy_example :
  exists s : signal,
    generate_signals [Sample.jan_red; Sample.feb_green] = [s] /\
    sig_type s = BUY /\ strength s = Fin (1000 # 100).
Proof. eexists. split; [reflexivity|]. split; reflexivity. Qed.

(** Two green bars give no signal. *)
Example no_signal_example :
  generate_signals [Sample.feb_green; Sample.feb_green] = [].
Proof. reflexivity. Qed.

(** The fallback: in March 2026 two bars of 2024 are still compared. *)
Example fallback_example :
  exists s : month_signal,
    generate_signal_for_last_two_months Sample.now
      [Sample.old_red; Sample.old_green] = Ok (Some s) /\
    ms_type s = BUY /\ ms_previous_month s = "May 2024"%string /\
    ms_current_month s = "June 2024"%string.
Proof. eexists. split; [reflexivity|]. repeat split. Qed.

(** C1, the claim as stated fails: the strength of the signal is 33.33, not
    the unrounded move of one third of the previous open. *)
Lemma generate_signals_strength_not_exact :
  exists s : signal,
    generate_signals [Sample.third_prev; Sample.third_cur] = [s] /\
    sig_type s = BUY /\
    strength s = Fin (3333 # 100) /\
    ~ (3333 # 100 ==
       (close Sample.third_cur - open Sample.third_prev)
         / open Sample.third_prev * 100)%Q.
Proof.
  eexists. split; [reflexivity|]. split; [reflexivity|]. split; [reflexivity|].
  vm_compute. discriminate.
Qed.

(** C2, the claim as stated fails: the rows are not sorted.  In March 2026,
    of a bar of June 2024 followed by a bar of May 2024 the comparison takes
    June as the previous bar and May as the current one, and gives a SELL
    dated 1 May 2024; the two most recent bars in the order of their dates
    are May, then June. *)
Lemma fallback_pair_in_given_order :
  exists (p c : cbar) (s : month_signal),
    compared_pair Sample.now (process_data [Sample.old_green; Sample.old_red])
      = Some (p, c) /\
    row p = Sample.old_green /\ row c = Sample.old_red /\
    dt_leb (date (row p)) (date (row c)) = false /\
    generate_signal_for_last_two_months Sample.now
      [Sample.old_green; Sample.old_red] = Ok (Some s) /\
    ms_type s = SELL /\ ms_date s = "2024-05-01"%string /\
    ms_previous_month s = "June 2024"%string /\
    ms_current_month s = "May 2024"%string.
Proof.
  eexists _, _, _. split; [reflexivity|]. repeat split.
Qed.

(** C2 in March 2026 on two bars of January and one of February: the first
    January bar is compared with the February bar. *)
Lemma anchored_pair_selection_witness :
  (2 <= length [Sample.jan_red; Sample.jan_late; Sample.feb_green])%nat /\
  (exists b, b ∈ [Sample.jan_red; Sample.jan_late; Sample.feb_green] /\
             same_month (get_last_two_complete_months Sample.now).1 b) /\
  (exists b, b ∈ [Sample.jan_red; Sample.jan_late; Sample.feb_green] /\
             same_month (get_last_two_complete_months Sample.now).2 b) /\
  exists (i j : nat) (p c : cbar),
    process_data [Sample.jan_red; Sample.jan_late; Sample.feb_green] !! i = Some p /\
    process_data [Sample.jan_red; Sample.jan_late; Sample.feb_green] !! j = Some c /\
    first_bar_of_month (get_last_two_complete_months Sample.now).1
      [Sample.jan_red; Sample.jan_late; Sample.feb_green] i (row p) /\
    first_bar_of_month (get_last_two_complete_months Sample.now).2
      [Sample.jan_red; Sample.jan_late; Sample.feb_green] j (row c) /\
    compared_pair Sample.now
      (process_data [Sample.jan_red; Sample.jan_late; Sample.feb_green])
      = Some (p, c) /\
    generate_signal_for_last_two_months Sample.now
      [Sample.jan_red; Sample.jan_late; Sample.feb_green]
      = month_signal_for_pair p c /\
    row p = Sample.jan_red /\ row c = Sample.feb_green.
Proof.
  assert (H1 : (2 <= length [Sample.jan_red; Sample.jan_late; Sample.feb_green])%nat)
    by (simpl; lia).
  assert (H2 : exists b, b ∈ [Sample.jan_red; Sample.jan_late; Sample.feb_green] /\
                 same_month (get_last_two_complete_months Sample.now).1 b).
  { exists Sample.jan_late.
    split; [apply list_elem_of_In; right; left; reflexivity | split; reflexivity]. }
  assert (H3 : exists b, b ∈ [Sample.jan_red; Sample.jan_late; Sample.feb_green] /\
                 same_month (get_last_two_complete_months Sample.now).2 b).
  { exists Sample.feb_green.
    split; [apply list_elem_of_In; right; right; left; reflexivity
           | split; reflexivity]. }
  split; [exact H1|]. split; [exact H2|]. split; [exact H3|].
  destruct (proj1 (proj2 (proj2 (proj2
              (anchored_pair_selection Sample.now
                 [Sample.jan_red; Sample.jan_late; Sample.feb_green]))) H1) H2 H3)
    as (i & j & p & c & Hi & Hj & Fp & Fc & Hpair & Hgen).
  exists i, j, p, c. repeat (split; [assumption|]).
  assert (E : compared_pair Sample.now
                (process_data [Sample.jan_red; Sample.jan_late; Sample.feb_green])
              = Some (classified None Sample.jan_red,
                      classified (Some Sample.jan_late) Sample.feb_green))
    by reflexivity.
  rewrite E in Hpair. injection Hpair as <- <-. split; reflexivity.
Defined.

(** C3, the claim as stated fails: a BUY signal of either algorithm whose
    strength is 0. *)
Lemma strength_zero_signal :
  (exists s : signal,
     generate_signals [Sample.jan_red; Sample.feb_barely] = [s] /\
     sig_type s = BUY /\
     exists q : Q, strength s = Fin q /\ ~ (0 < q)%Q) /\
  (exists s : month_signal,
     generate_signal_for_last_two_months Sample.now
       [Sample.jan_red; Sample.feb_barely] = Ok (Some s) /\
     ms_type s = BUY /\ ~ (0 < ms_strength s)%Q).
Proof.
  split.
  - eexists. split; [reflexivity|]. split; [reflexivity|].
    eexists. split; [reflexivity|]. vm_compute. discriminate.
  - eexists. split; [reflexivity|]. split; [reflexivity|].
    vm_compute. discriminate.
Qed.

(** C3 at the specification's BUY example. *)
Lemma strength_rounded_favourable_move_witness :
  Forall nonneg_prices [Sample.jan_red; Sample.feb_green] /\
  forall s : signal,
    s ∈ generate_signals [Sample.jan_red; Sample.feb_green] ->
    exists (i : nat) (previous current : bar),
      [Sample.jan_red; Sample.feb_green] !! i = Some previous /\
      [Sample.jan_red; Sample.feb_green] !! S i = Some current /\
      (0 < open previous)%Q /\
      (0 < favourable_move (sig_type s) previous current)%Q /\
      strength s = Fin (round2 (favourable_move (sig_type s) previous current)) /\
      (0 <= round2 (favourable_move (sig_type s) previous current))%Q.
Proof.
  assert (H : Forall nonneg_prices [Sample.jan_red; Sample.feb_green]).
  { repeat constructor; simpl; unfold Qle; simpl; lia. }
  split; [exact H|].
  exact (proj1 (strength_rounded_favourable_move Sample.now _ H)).
Defined.

(** C4 on 15 March 2026, 14:30. *)
Lemma get_last_two_complete_months_witness :
  valid_datetime Sample.now /\
  get_last_two_complete_months Sample.now =
    (mk_datetime 2026 1 1 52200000000, mk_datetime 2026 2 1 52200000000).
Proof.
  assert (H : valid_datetime Sample.now).
  { repeat split; vm_compute; first [reflexivity | discriminate]. }
  split; [exact H|].
  exact (proj2 (get_last_two_complete_months_correct Sample.now H) eq_refl eq_refl).
Defined.

(** C6 on a heap that holds one raw frame of one bar. *)
Lemma process_data_pure_witness :
  ({[ 0%nat := RawFrame [Sample.jan_red] ]} : gmap nat frame) !! 0%nat
    = Some (RawFrame [Sample.jan_red]) /\
  exists (df1 : nat) (h1 : gmap nat frame) (df2 : nat) (h2 : gmap nat frame),
    process_data_obj 0 {[ 0%nat := RawFrame [Sample.jan_red] ]} = Some (df1, h1) /\
    process_data_obj 0 h1 = Some (df2, h2) /\
    h2 !! 0%nat = Some (RawFrame [Sample.jan_red]) /\
    h2 !! df1 = h2 !! df2.
Proof.
  assert (H : ({[ 0%nat := RawFrame [Sample.jan_red] ]} : gmap nat frame) !! 0%nat
              = Some (RawFrame [Sample.jan_red]))
    by apply lookup_singleton_eq.
  split; [exact H|].
  destruct (process_data_pure _ _ _ H)
    as (df1 & h1 & df2 & h2 & R1 & R2 & Hkeep & _ & _ & _ & E1 & E2 & _).
  exists df1, h1, df2, h2.
  split; [exact R1|]. split; [exact R2|].
  split; [exact (proj2 (Hkeep _ _ H))|].
  rewrite E1, E2. reflexivity.
Defined.


(** A scan of three symbols of which the provider knows one. *)
Example scan_three_example :
  exists (rep : report) (w' : world unit),
    scan_all_stocks Sample.now unit Sample.seed_unit Sample.uniform_lo
      Sample.normal_mean Sample.hash_zero Sample.only_good
      (Some ["BAD"; "GOOD"; "WORSE"]%string) (mk_world unit false ∅ tt)
      = (Ok rep, w') /\
    errors rep = [fetch_failed "BAD"; fetch_failed "WORSE"] /\
    a_symbol <$> all_stocks rep = ["GOOD"%string] /\
    a_symbol <$> buy_signals rep = ["GOOD"%string].
Proof.
  destruct (scan_all_stocks_run Sample.now unit Sample.seed_unit Sample.uniform_lo
              Sample.normal_mean Sample.hash_zero Sample.only_good
              (Some ["BAD"; "GOOD"; "WORSE"]%string) (mk_world unit false ∅ tt))
    as (rep & w' & Hrun & _ & Herr & Hall & _ & _ & Hbuy & _).
  exists rep, w'. split; [exact Hrun|].
  rewrite Hbuy, Herr, Hall. repeat split; vm_compute; reflexivity.
Qed.

(** The months of the synthetic bars in March 2026: July 2025 to February
    2026, eight month starts at the time of day of the clock. *)
Example mock_dates_example :
  date <$> (_generate_mock_data Sample.now unit Sample.seed_unit Sample.uniform_lo
              Sample.normal_mean Sample.hash_zero "X" None None
              (mk_world unit true ∅ tt)).2.(stocks_data unit) !!! "X"%string
  = (fun m => mk_datetime (if m <? 7 then 2026 else 2025) m 1 52200000000)
      <$> [7; 8; 9; 10; 11; 12; 1; 2].
Proof. vm_compute. reflexivity. Qed.

(** A symbol whose analysis raises is one error entry, and the scan goes on. *)
Example scan_fault_example :
  exists (rep : report) (w' : world unit),
    scan_all_stocks Sample.now unit Sample.seed_unit Sample.uniform_lo
      Sample.normal_mean Sample.hash_zero Sample.with_zero_open
      (Some ["ZERO"; "GOOD"]%string) (mk_world unit false ∅ tt)
      = (Ok rep, w') /\
    errors rep = [mk_error_entry "ZERO" ZeroDivisionError] /\
    a_symbol <$> all_stocks rep = ["GOOD"%string].
Proof.
  destruct (scan_all_stocks_run Sample.now unit Sample.seed_unit Sample.uniform_lo
              Sample.normal_mean Sample.hash_zero Sample.with_zero_open
              (Some ["ZERO"; "GOOD"]%string) (mk_world unit false ∅ tt))
    as (rep & w' & Hrun & _ & Herr & Hall & _).
  exists rep, w'. split; [exact Hrun|].
  rewrite Herr, Hall. split; vm_compute; reflexivity.
Qed.

(** ** Further theorems at concrete inputs *)

(** X4 on a red January, a green February and a red March: a BUY, then a
    SELL. *)
Lemma consecutive_signals_alternate_witness :
  exists (previous current next : cbar) (s s' : signal),
    process_data [Sample.jan_red; Sample.feb_green; Sample.mar_red] !! 0%nat
      = Some previous /\
    process_data [Sample.jan_red; Sample.feb_green; Sample.mar_red] !! 1%nat
      = Some current /\
    process_data [Sample.jan_red; Sample.feb_green; Sample.mar_red] !! 2%nat
      = Some next /\
    signal_for_pair previous current = Some s /\
    signal_for_pair current next = Some s' /\
    sig_type s = BUY /\ sig_type s' = SELL /\
    sig_type s <> sig_type s'.
Proof.
  eexists _, _, _, _, _.
  split; [reflexivity|]. split; [reflexivity|]. split; [reflexivity|].
  split; [reflexivity|]. split; [reflexivity|].
  split; [reflexivity|]. split; [reflexivity|].
  exact (consecutive_signals_alternate
           [Sample.jan_red; Sample.feb_green; Sample.mar_red] 0 _ _ _ _ _
           eq_refl eq_refl eq_refl eq_refl eq_refl).
Defined.

(** X7 in March 2026 on two bars of 2024. *)
Lemma fallback_is_latest_history_witness :
  (2 <= length [Sample.old_red; Sample.old_green])%nat /\
  ((forall r, r ∈ process_data [Sample.old_red; Sample.old_green] ->
      in_month (get_last_two_complete_months Sample.now).1 r = false) \/
   (forall r, r ∈ process_data [Sample.old_red; Sample.old_green] ->
      in_month (get_last_two_complete_months Sample.now).2 r = false)) /\
  Forall (fun b => ~ (open b == 0)%Q) [Sample.old_red; Sample.old_green] /\
  exists (previous current : cbar) (earlier : list signal),
    process_data [Sample.old_red; Sample.old_green] !! 0%nat = Some previous /\
    process_data [Sample.old_red; Sample.old_green] !! 1%nat = Some current /\
    generate_signals [Sample.old_red; Sample.old_green]
      = earlier ++ option_list (signal_for_pair previous current) /\
    match generate_signal_for_last_two_months Sample.now
            [Sample.old_red; Sample.old_green] with
    | Ok (Some ms) =>
        exists s : signal,
          signal_for_pair previous current = Some s /\
          get_latest_signal [Sample.old_red; Sample.old_green] = Some s /\
          ms_type ms = sig_type s /\ ms_symbol ms = sig_symbol s /\
          ms_date ms = sig_date s
    | Ok None => signal_for_pair previous current = None
    | Raise _ => False
    end.
Proof.
  assert (H1 : (2 <= length [Sample.old_red; Sample.old_green])%nat)
    by (simpl; lia).
  assert (H2 : (forall r, r ∈ process_data [Sample.old_red; Sample.old_green] ->
                  in_month (get_last_two_complete_months Sample.now).1 r = false) \/
               (forall r, r ∈ process_data [Sample.old_red; Sample.old_green] ->
                  in_month (get_last_two_complete_months Sample.now).2 r = false)).
  { left. intros r Hr. apply list_elem_of_In in Hr.
    destruct Hr as [<- | [<- | []]]; reflexivity. }
  assert (H3 : Forall (fun b => ~ (open b == 0)%Q)
                 [Sample.old_red; Sample.old_green]).
  { repeat constructor; vm_compute; discriminate. }
  split; [exact H1|]. split; [exact H2|]. split; [exact H3|].
  exact (fallback_is_latest_history Sample.now
           [Sample.old_red; Sample.old_green] H1 H2 H3).
Defined.

(** X8 in March 2026 on a red January and a green February. *)
Lemma signal_labels_match_comparison_witness :
  exists (a : analysis) (s : month_signal),
    analyze_fetched Sample.now "X" (Some [Sample.jan_red; Sample.feb_green])
      = Ok (AnalysisSuccess a) /\
    latest_signal a = Some s /\
    (exists r, r ∈ process_data [Sample.jan_red; Sample.feb_green] /\
               in_month (get_last_two_complete_months Sample.now).1 r = true) /\
    (exists r, r ∈ process_data [Sample.jan_red; Sample.feb_green] /\
               in_month (get_last_two_complete_months Sample.now).2 r = true) /\
    comparison_months a = "January 2026 vs February 2026"%string /\
    comparison_months a = ms_previous_month s +:+ " vs " +:+ ms_current_month s /\
    exists current : cbar,
      first_in_month (get_last_two_complete_months Sample.now).2
        (process_data [Sample.jan_red; Sample.feb_green]) current /\
      ms_symbol s = symbol (row current) /\
      ms_date s = strftime_ymd (date (row current)).
Proof.
  eexists _, _.
  assert (H3 : exists r, r ∈ process_data [Sample.jan_red; Sample.feb_green] /\
                 in_month (get_last_two_complete_months Sample.now).1 r = true).
  { eexists. split; [apply list_elem_of_In; left; reflexivity | reflexivity]. }
  assert (H4 : exists r, r ∈ process_data [Sample.jan_red; Sample.feb_green] /\
                 in_month (get_last_two_complete_months Sample.now).2 r = true).
  { eexists. split; [apply list_elem_of_In; right; left; reflexivity | reflexivity]. }
  split; [reflexivity|]. split; [reflexivity|].
  split; [exact H3|]. split; [exact H4|]. split; [reflexivity|].
  exact (signal_labels_match_comparison Sample.now "X"
           [Sample.jan_red; Sample.feb_green] _ _ eq_refl eq_refl H3 H4).
Defined.

(** X10 on 15 March 2026, 14:30. *)
Lemma mock_data_covers_compared_months_witness :
  valid_datetime Sample.now /\
  exists (rows : list bar) (w' : world unit),
    _generate_mock_data Sample.now unit Sample.seed_unit Sample.uniform_lo
      Sample.normal_mean Sample.hash_zero "X" None None (mk_world unit true ∅ tt)
      = (Ok rows, w') /\
    date <$> rows = default_mock_dates Sample.now /\
    length rows = 8%nat /\
    chronological rows /\
    exists previous current : cbar,
      process_data rows !! 6%nat = Some previous /\
      process_data rows !! 7%nat = Some current /\
      in_month (get_last_two_complete_months Sample.now).1 previous = true /\
      in_month (get_last_two_complete_months Sample.now).2 current = true /\
      compared_pair Sample.now (process_data rows) = Some (previous, current) /\
      generate_signal_for_last_two_months Sample.now rows
        = month_signal_for_pair previous current.
Proof.
  assert (H : valid_datetime Sample.now).
  { repeat split; vm_compute; first [reflexivity | discriminate]. }
  split; [exact H|].
  exact (mock_data_covers_compared_months Sample.now unit Sample.seed_unit
           Sample.uniform_lo Sample.normal_mean Sample.hash_zero "X"
           (mk_world unit true ∅ tt) H).
Defined.

(** X16 with a generator that returns the lower bound and the mean. *)
Lemma mock_candles_well_formed_witness :
  draws_bounded unit Sample.uniform_lo Sample.normal_mean /\
  exists (rows : list bar) (w' : world unit),
    _generate_mock_data Sample.now unit Sample.seed_unit Sample.uniform_lo
      Sample.normal_mean Sample.hash_zero "X" None None (mk_world unit true ∅ tt)
      = (Ok rows, w') /\
    Forall well_formed rows.
Proof.
  assert (H : draws_bounded unit Sample.uniform_lo Sample.normal_mean).
  { repeat split; intros g; vm_compute; discriminate. }
  split; [exact H|].
  exact (mock_candles_well_formed Sample.now unit Sample.seed_unit
           Sample.uniform_lo Sample.normal_mean Sample.hash_zero "X" None None
           (mk_world unit true ∅ tt) H).
Defined.

(** X17 in mock mode on two symbols. *)
Lemma mock_scan_complete_witness :
  valid_datetime Sample.now /\
  draws_bounded unit Sample.uniform_lo Sample.normal_mean /\
  use_mock_data unit (mk_world unit true ∅ tt) = true /\
  exists (rep : report) (w' : world unit),
    scan_all_stocks Sample.now unit Sample.seed_unit Sample.uniform_lo
      Sample.normal_mean Sample.hash_zero Sample.no_data
      (Some ["TCS"; "INFY"]%string) (mk_world unit true ∅ tt) = (Ok rep, w') /\
    errors rep = [] /\
    a_symbol <$> all_stocks rep
      = stocks_or_default (Some ["TCS"; "INFY"]%string) /\
    error_count (summary_of rep) = 0%nat /\
    total_scanned (summary_of rep) = total_stocks rep.
Proof.
  assert (H1 : valid_datetime Sample.now).
  { repeat split; vm_compute; first [reflexivity | discriminate]. }
  assert (H2 : draws_bounded unit Sample.uniform_lo Sample.normal_mean).
  { repeat split; intros g; vm_compute; discriminate. }
  split; [exact H1|]. split; [exact H2|]. split; [reflexivity|].
  exact (mock_scan_complete Sample.now unit Sample.seed_unit Sample.uniform_lo
           Sample.normal_mean Sample.hash_zero Sample.no_data
           (Some ["TCS"; "INFY"]%string) (mk_world unit true ∅ tt)
           H1 H2 eq_refl).
Defined.

(** The weaker signal is met first and listed second. *)
Example scan_sorts_example :
  exists (rep : report) (w' : world unit),
    scan_all_stocks Sample.now unit Sample.seed_unit Sample.uniform_lo
      Sample.normal_mean Sample.hash_zero Sample.two_buys
      (Some ["WEAK"; "STRONG"]%string) (mk_world unit false ∅ tt)
      = (Ok rep, w') /\
    a_symbol <$> all_stocks rep = ["WEAK"; "STRONG"]%string /\
    a_symbol <$> buy_signals rep = ["STRONG"; "WEAK"]%string /\
    strength_key <$> buy_signals rep = [1000 # 100; 500 # 100].
Proof.
  destruct (scan_all_stocks_run Sample.now unit Sample.seed_unit Sample.uniform_lo
              Sample.normal_mean Sample.hash_zero Sample.two_buys
              (Some ["WEAK"; "STRONG"]%string) (mk_world unit false ∅ tt))
    as (rep & w' & Hrun & _ & _ & Hall & _ & _ & Hbuy & _).
  exists rep, w'. split; [exact Hrun|].
  rewrite Hbuy, Hall. repeat split; vm_compute; reflexivity.
Qed.

(** A window that ends in the middle of a month, at an earlier time of day
    than it starts: the month start of the last month is still in the range. *)
Example date_range_mid_month_example :
  date_range_MS (mk_datetime 2026 1 1 52200000000)
                (mk_datetime 2026 3 15 32400000000)
  = [mk_datetime 2026 1 1 52200000000; mk_datetime 2026 2 1 52200000000;
     mk_datetime 2026 3 1 52200000000].
Proof. reflexivity. Qed.

(** A window that starts in the middle of a month starts with the next month
    start. *)
Example date_range_roll_forward_example :
  date_range_MS (mk_datetime 2026 1 15 0) (mk_datetime 2026 3 1 0)
  = [mk_datetime 2026 2 1 0; mk_datetime 2026 3 1 0].
Proof. reflexivity. Qed.
